(** * Onboarding-Platform: field controls, date field, file picker and counter timer

    A shallow embedding of the core of the React Native onboarding form:
    - [ValidationEngine]: the [validate] callback of [CustomTextInput]
      (src/types/onboarding.ts) and the text field's touch/blur state;
    - [DateField]: [formatDate], [parseDate], [validateDate] and
      [handleTextChange] of [CalendarPicker]
      (src/components/onboarding/CalendarPicker.tsx), over a model of the
      JavaScript [Date] constructor and getters;
    - [FileSelection]: [FilePicker] (src/unnamed/part_001);
    - [Counter]: [CounterTimer] (src/unnamed/part_002) as a two-thread
      system (JS thread and Reanimated UI thread).

    Strings are Rocq strings of 8-bit code units; JavaScript numbers that
    the code only uses as integers are [Z]. *)

From Stdlib Require Import String Ascii List ZArith Lia Bool.
From Stdlib Require DecimalString DecimalZ.
From Stdlib Require Import QArith Qminmax Qround Permutation Lqa.
Import ListNotations.
Open Scope Z_scope.

(** ** Character classes and string helpers shared by the components *)

Module JsString.

(** JavaScript [WhiteSpace] and [LineTerminator] code units in the
    Latin-1 range: what [String.prototype.trim] strips and what [\s]
    matches. *)
Definition is_space (c : ascii) : bool :=
  let n := nat_of_ascii c in
  (Nat.eqb n 9 || Nat.eqb n 10 || Nat.eqb n 11 || Nat.eqb n 12 ||
   Nat.eqb n 13 || Nat.eqb n 32 || Nat.eqb n 160)%bool.

Fixpoint drop_spaces (l : list ascii) : list ascii :=
  match l with
  | [] => []
  | c :: r => if is_space c then drop_spaces r else l
  end.

(** [s.trim()] *)
Definition trim (s : string) : string :=
  string_of_list_ascii
    (rev (drop_spaces (rev (drop_spaces (list_ascii_of_string s))))).

(** [s.length] *)
Definition js_length (s : string) : Z := Z.of_nat (String.length s).

End JsString.

(** ** ValidationEngine and the text field controller *)

Module ValidationEngine.
Import JsString.

(** [ValidationRule] of src/types/onboarding.ts:
    [{ type; value?; message; validator? }].  The kind fixes what [value]
    holds: a number for [minLength]/[maxLength], a [RegExp] (its [test]
    method) for [regex]; an absent [value] or [validator] is [None]. *)
Inductive ValidationRule :=
| RRequired (message : string)
| RMinLength (value : option Z) (message : string)
| RMaxLength (value : option Z) (message : string)
| RRegex (value : option (string -> bool)) (message : string)
| REmail (message : string)
| RCustom (validator : option (string -> bool)) (message : string).

Definition rule_message (r : ValidationRule) : string :=
  match r with
  | RRequired m | RMinLength _ m | RMaxLength _ m
  | RRegex _ m | REmail m | RCustom _ m => m
  end.

Definition no_space_no_at (c : ascii) : bool :=
  negb (is_space c) && negb (Ascii.eqb c "@"%char).

(** [b] of [/[^\s@]+\.[^\s@]+/]: a dot with at least one code unit on each
    side, every code unit outside [\s] and [@]. *)
Fixpoint dot_inside (seen : bool) (l : list ascii) : bool :=
  match l with
  | [] => false
  | c :: r =>
      (seen && Ascii.eqb c "."%char && negb (match r with [] => true | _ => false end))
      || dot_inside true r
  end.

Fixpoint split_at_at (l : list ascii) : option (list ascii * list ascii) :=
  match l with
  | [] => None
  | c :: r =>
      if Ascii.eqb c "@"%char then Some ([], r)
      else match split_at_at r with
           | Some (a, b) => Some (c :: a, b)
           | None => None
           end
  end.

(** [/^[^\s@]+@[^\s@]+\.[^\s@]+$/.test(text)]: since neither side may
    contain [@], the only possible split point is the first [@]. *)
Definition email_test (s : string) : bool :=
  let l := list_ascii_of_string s in
  match split_at_at l with
  | None => false
  | Some (a, b) =>
      negb (match a with [] => true | _ => false end)
      && forallb no_space_no_at a && forallb no_space_no_at b
      && dot_inside false b
  end.

(** One iteration of [validators.forEach] in [validate]. *)
Definition validate_step (text : string) (acc : list string)
    (rule : ValidationRule) : list string :=
  match rule with
  | RRequired m =>
      if String.eqb (trim text) "" then acc ++ [m] else acc
  | RMinLength v m =>
      match v with
      | Some n => if js_length text <? n then acc ++ [m] else acc
      | None => acc            (* [text.length < undefined] is false *)
      end
  | RMaxLength v m =>
      match v with
      | Some n => if n <? js_length text then acc ++ [m] else acc
      | None => acc
      end
  | REmail m =>
      if negb (String.eqb text "") && negb (email_test text)
      then acc ++ [m] else acc
  | RRegex v m =>
      match v with
      | Some t =>
          if negb (String.eqb text "") && negb (t text) then acc ++ [m] else acc
      | None => acc
      end
  | RCustom f m =>
      match f with
      | Some p => if negb (p text) then acc ++ [m] else acc
      | None => acc
      end
  end.

(** [validate(text)] of [CustomTextInput]. *)
Definition validate (validators : list ValidationRule) (text : string)
    : list string :=
  fold_left (validate_step text) validators [].

(** Spec side: the [local@domain.tld] shape, every part non-empty and free
    of white space and [@]. *)
Definition email_shape (s : string) : Prop :=
  exists loc dom tld : list ascii,
    list_ascii_of_string s = loc ++ "@"%char :: dom ++ "."%char :: tld
    /\ loc <> [] /\ dom <> [] /\ tld <> []
    /\ forallb no_space_no_at (loc ++ dom ++ tld) = true.

(** Spec side (spec 4.1): what it means for a value to satisfy a rule. A
    rule whose parameter or predicate is absent imposes no constraint. *)
Definition rule_satisfied (v : string) (r : ValidationRule) : Prop :=
  match r with
  | RRequired _ => trim v <> ""%string
  | RMinLength (Some n) _ => n <= js_length v
  | RMaxLength (Some n) _ => js_length v <= n
  | RRegex (Some t) _ => v = ""%string \/ t v = true
  | REmail _ => v = ""%string \/ email_shape v
  | RCustom (Some p) _ => p v = true
  | _ => True
  end.

(** Spec side, as a test: the rule fails iff it is not satisfied. *)
Definition rule_fails (v : string) (r : ValidationRule) : bool :=
  match r with
  | RRequired _ => String.eqb (trim v) ""
  | RMinLength (Some n) _ => js_length v <? n
  | RMaxLength (Some n) _ => n <? js_length v
  | RRegex (Some t) _ => negb (String.eqb v "") && negb (t v)
  | REmail _ => negb (String.eqb v "") && negb (email_test v)
  | RCustom (Some p) _ => negb (p v)
  | _ => false
  end.

(** *** Text field controller ([CustomTextInput]) *)

Record FieldState := {
  internalValue : string;
  isFocused : bool;
  isTouched : bool;
  errors : list string
}.

Definition initial_field : FieldState :=
  {| internalValue := ""; isFocused := false; isTouched := false; errors := [] |}.

(** Props fixed at construction: [value] ([None] = uncontrolled mode) and
    [validators]. *)
Record FieldProps := {
  externalValue : option string;
  validators : list ValidationRule
}.

Definition current_value (p : FieldProps) (s : FieldState) : string :=
  match externalValue p with Some v => v | None => internalValue s end.

Definition handleChangeText (p : FieldProps) (s : FieldState) (text : string)
    : FieldState :=
  let s1 := match externalValue p with
            | Some _ => s
            | None => {| internalValue := text; isFocused := isFocused s;
                         isTouched := isTouched s; errors := errors s |}
            end in
  if isTouched s
  then {| internalValue := internalValue s1; isFocused := isFocused s1;
          isTouched := isTouched s1; errors := validate (validators p) text |}
  else s1.

Definition handleFocus (s : FieldState) : FieldState :=
  {| internalValue := internalValue s; isFocused := true;
     isTouched := isTouched s; errors := errors s |}.

Definition handleBlur (p : FieldProps) (s : FieldState) : FieldState :=
  {| internalValue := internalValue s; isFocused := false; isTouched := true;
     errors := validate (validators p) (current_value p s) |}.

Definition hasError (s : FieldState) : bool :=
  isTouched s && negb (Nat.eqb (List.length (errors s)) 0).

Definition isSuccess (p : FieldProps) (s : FieldState) : bool :=
  isTouched s && Nat.eqb (List.length (errors s)) 0
  && negb (Nat.eqb (String.length (trim (current_value p s))) 0).

(** The messages rendered under the input: [errors.map(...)] when
    [hasError], nothing otherwise. *)
Definition shown_messages (s : FieldState) : list string :=
  if hasError s then errors s else [].

(** User events on the text input, applied one render at a time. *)
Inductive FieldEvent := EvChangeText (text : string) | EvFocus | EvBlur.

Definition field_step (p : FieldProps) (s : FieldState) (e : FieldEvent)
    : FieldState :=
  match e with
  | EvChangeText t => handleChangeText p s t
  | EvFocus => handleFocus s
  | EvBlur => handleBlur p s
  end.

Definition run_field (p : FieldProps) (s : FieldState) (es : list FieldEvent)
    : FieldState :=
  fold_left (field_step p) es s.

Definition is_blur (e : FieldEvent) : bool :=
  match e with EvBlur => true | _ => false end.

End ValidationEngine.

(** ** DateField ([CalendarPicker]) *)

Module DateField.
Import JsString.
Local Open Scope string_scope.
Local Open Scope Z_scope.

(** *** Numbers as text *)

(** [String(n)] for an integer [n]: decimal digits, a leading [-] when
    negative. *)
Definition js_String_int (n : Z) : string :=
  DecimalString.NilZero.string_of_int (Z.to_int n).

(** [s.padStart(2, '0')] *)
Definition padStart2 (s : string) : string :=
  match String.length s with
  | O => "00"
  | 1%nat => String "0"%char s
  | _ => s
  end.

Definition digit_of (c : ascii) (u : Decimal.uint) : option Decimal.uint :=
  match nat_of_ascii c with
  | 48%nat => Some (Decimal.D0 u) | 49%nat => Some (Decimal.D1 u)
  | 50%nat => Some (Decimal.D2 u) | 51%nat => Some (Decimal.D3 u)
  | 52%nat => Some (Decimal.D4 u) | 53%nat => Some (Decimal.D5 u)
  | 54%nat => Some (Decimal.D6 u) | 55%nat => Some (Decimal.D7 u)
  | 56%nat => Some (Decimal.D8 u) | 57%nat => Some (Decimal.D9 u)
  | _ => None
  end.

(** The longest prefix of decimal digits, as a digit string. *)
Fixpoint take_digits (l : list ascii) : Decimal.uint :=
  match l with
  | [] => Decimal.Nil
  | c :: r =>
      match digit_of c (take_digits r) with
      | Some u => u
      | None => Decimal.Nil
      end
  end.

(** [parseInt(s, 10)]: leading white space is skipped, an optional sign is
    read, then the longest run of decimal digits; [None] is [NaN] (no digit
    at all). *)
Definition parseInt (s : string) : option Z :=
  let l := drop_spaces (list_ascii_of_string s) in
  let '(sign, rest) :=
    match l with
    | c :: r => if Ascii.eqb c "-"%char then (-1, r)
                else if Ascii.eqb c "+"%char then (1, r) else (1, l)
    | [] => (1, l)
    end in
  match take_digits rest with
  | Decimal.Nil => None
  | u => Some (sign * Z.of_uint u)
  end.

(** [s.split(sep)] *)
Fixpoint split_list (sep : ascii) (l : list ascii) : list (list ascii) :=
  match l with
  | [] => [[]]
  | c :: r =>
      let ps := split_list sep r in
      if Ascii.eqb c sep then [] :: ps
      else match ps with
           | p :: ps' => (c :: p) :: ps'
           | [] => [[c]]
           end
  end.

Definition split (sep : ascii) (s : string) : list string :=
  map string_of_list_ascii (split_list sep (list_ascii_of_string s)).

(** *** The JavaScript [Date] *)

(** A date is its day number relative to 1970-01-01 at local midnight, with
    the local time zone at UTC offset 0; [None] is an Invalid Date
    ([getTime()] is [NaN]). *)
Definition JsDate := option Z.

(** Day number of the proleptic Gregorian date [y-m-d] ([1 <= m <= 12]),
    by eras of 400 years. *)
Definition days_from_civil (y m d : Z) : Z :=
  let y' := if m <=? 2 then y - 1 else y in
  let era := y' / 400 in
  let yoe := y' - era * 400 in
  let mp := (m + 9) mod 12 in
  let doy := (153 * mp + 2) / 5 + d - 1 in
  let doe := yoe * 365 + yoe / 4 - yoe / 100 + doy in
  era * 146097 + doe - 719468.

(** The inverse: [(year, month 1..12, day 1..31)] of a day number. *)
Definition civil_from_days (z : Z) : Z * Z * Z :=
  let z' := z + 719468 in
  let era := z' / 146097 in
  let doe := z' - era * 146097 in
  let yoe := (doe - doe / 1460 + doe / 36524 - doe / 146096) / 365 in
  let y := yoe + era * 400 in
  let doy := doe - (365 * yoe + yoe / 4 - yoe / 100) in
  let mp := (5 * doy + 2) / 153 in
  let d := doy - (153 * mp + 2) / 5 + 1 in
  let m := if mp <? 10 then mp + 3 else mp - 9 in
  (if m <=? 2 then y + 1 else y, m, d).

(** ECMAScript MakeDay: month [mon] counts from 0 and may overflow into the
    year, [dt] may overflow into the following months. *)
Definition make_day (y mon dt : Z) : Z :=
  days_from_civil (y + mon / 12) (mon mod 12 + 1) 1 + dt - 1.

(** [new Date(year, month, day)]: a year in [0..99] means [1900 + year];
    a time value beyond 8.64e15 ms (1e8 days) is an Invalid Date; a [NaN]
    argument gives an Invalid Date. *)
Definition new_Date (year month day : option Z) : JsDate :=
  match year, month, day with
  | Some y, Some mon, Some dt =>
      let y' := if (0 <=? y) && (y <=? 99) then 1900 + y else y in
      let t := make_day y' mon dt in
      if Z.abs t <=? 100000000 then Some t else None
  | _, _, _ => None
  end.

Definition getFullYear (t : Z) : Z := let '(y, _, _) := civil_from_days t in y.
Definition getMonth (t : Z) : Z := let '(_, m, _) := civil_from_days t in m - 1.
Definition getDate (t : Z) : Z := let '(_, _, d) := civil_from_days t in d.

(** A valid date object: its time value is within the [Date] range. *)
Definition valid_date (t : Z) : Prop := Z.abs t <= 100000000.

(** *** The component's pure functions *)

Inductive DateFormat := DD_MM_YYYY | MM_DD_YYYY | YYYY_MM_DD.

Definition format_name (f : DateFormat) : string :=
  match f with
  | DD_MM_YYYY => "DD/MM/YYYY"
  | MM_DD_YYYY => "MM/DD/YYYY"
  | YYYY_MM_DD => "YYYY-MM-DD"
  end.

(** [formatDate] *)
Definition formatDate (format : DateFormat) (date : Z) : string :=
  let day := padStart2 (js_String_int (getDate date)) in
  let month := padStart2 (js_String_int (getMonth date + 1)) in
  let year := js_String_int (getFullYear date) in
  match format with
  | DD_MM_YYYY => day ++ "/" ++ month ++ "/" ++ year
  | MM_DD_YYYY => month ++ "/" ++ day ++ "/" ++ year
  | YYYY_MM_DD => year ++ "-" ++ month ++ "-" ++ day
  end.

(** The positions of [day], [month] and [year] among the three parts. *)
Definition components (format : DateFormat) (parts : list string)
    : option (option Z * option Z * option Z) :=
  match format, parts with
  | DD_MM_YYYY, [p0; p1; p2] =>
      Some (parseInt p0, option_map (fun m => m - 1) (parseInt p1), parseInt p2)
  | MM_DD_YYYY, [p0; p1; p2] =>
      Some (parseInt p1, option_map (fun m => m - 1) (parseInt p0), parseInt p2)
  | YYYY_MM_DD, [p0; p1; p2] =>
      Some (parseInt p2, option_map (fun m => m - 1) (parseInt p1), parseInt p0)
  | _, _ => None           (* [parts.length !== 3] *)
  end.

Definition separator (format : DateFormat) : ascii :=
  match format with YYYY_MM_DD => "-"%char | _ => "/"%char end.

Definition opt_eqb (a : option Z) (b : Z) : bool :=
  match a with Some x => Z.eqb x b | None => false end.

(** [parseDate] *)
Definition parseDate (format : DateFormat) (dateString : string) : JsDate :=
  if String.eqb (trim dateString) "" then None else
  match components format (split (separator format) dateString) with
  | None => None
  | Some (day, month, year) =>
      match new_Date year month day with
      | None => None                                (* isNaN(getTime()) *)
      | Some t =>
          if opt_eqb day (getDate t) && opt_eqb month (getMonth t)
             && opt_eqb year (getFullYear t)
          then Some t else None
      end
  end.

(** The props of [CalendarPicker] that the checks read. *)
Record DateProps := {
  format : DateFormat;
  minDate : option Z;
  maxDate : option Z;
  required : bool
}.

(** [validateDate]; [""] is no error. *)
Definition validateDate (p : DateProps) (dateString : string) : string :=
  if required p && String.eqb (trim dateString) "" then "Date is required" else
  if String.eqb (trim dateString) "" then "" else
  match parseDate (format p) dateString with
  | None => "Invalid date format. Use " ++ format_name (format p)
  | Some date =>
      let max_check :=
        match maxDate p with
        | Some mx => if mx <? date
                     then "Date must be before " ++ formatDate (format p) mx
                     else ""
        | None => ""
        end in
      match minDate p with
      | Some mn => if date <? mn
                   then "Date must be after " ++ formatDate (format p) mn
                   else max_check
      | None => max_check
      end
  end.

(** Spec side (spec 4.3): the four checks of the date field in their
    order, each with the message it reports; the first failing one wins. *)
Definition first_failure (checks : list (bool * string)) : string :=
  match find fst checks with Some (_, m) => m | None => "" end.

Definition date_checks (p : DateProps) (s : string) : list (bool * string) :=
  let parsed := parseDate (format p) s in
  [ (required p && String.eqb (trim s) "", "Date is required");
    (match parsed with None => true | Some _ => false end,
     "Invalid date format. Use " ++ format_name (format p));
    (match parsed, minDate p with Some d, Some mn => d <? mn | _, _ => false end,
     match minDate p with
     | Some mn => "Date must be after " ++ formatDate (format p) mn
     | None => "" end);
    (match parsed, maxDate p with Some d, Some mx => mx <? d | _, _ => false end,
     match maxDate p with
     | Some mx => "Date must be before " ++ formatDate (format p) mx
     | None => "" end) ].

(** The bounds of the spec's example: 2025-01-01 to 2025-12-31 in
    [DD/MM/YYYY]. *)
Definition example_props (req : bool) : DateProps :=
  {| format := DD_MM_YYYY; minDate := Some (days_from_civil 2025 1 1);
     maxDate := Some (days_from_civil 2025 12 31); required := req |}.

(** [f] holds at the [n] integers from [i] on. *)
Fixpoint all_from (n : nat) (i : Z) (f : Z -> bool) : bool :=
  match n with
  | O => true
  | S k => if f i then all_from k (i + 1) f else false
  end.

(** Ranges of the intermediate values of [civil_from_days] within one
    400-year era, [doe] being the day of the era. *)
Definition civil_ok (doe : Z) : bool :=
  let yoe := (doe - doe / 1460 + doe / 36524 - doe / 146096) / 365 in
  let doy := doe - (365 * yoe + yoe / 4 - yoe / 100) in
  let mp := (5 * doy + 2) / 153 in
  let d := doy - (153 * mp + 2) / 5 + 1 in
  (0 <=? yoe) && (yoe <=? 399) && (0 <=? mp) && (mp <=? 11)
  && (1 <=? d) && (d <=? 31).

Definition no_sep (c : ascii) : bool :=
  negb (Ascii.eqb c "/"%char) && negb (Ascii.eqb c "-"%char).

(** A two-digit day or month field reads back as its number and holds no
    separator. *)
Definition pad_ok (n : Z) : bool :=
  match parseInt (padStart2 (js_String_int n)) with
  | Some k => Z.eqb k n
  | None => false
  end && forallb no_sep (list_ascii_of_string (padStart2 (js_String_int n))).

(** *** The text-change handler and its scopes *)

(** The component state that [handleTextChange] reads and writes. *)
Record DateState := {
  textValue : string;
  error : string;
  isTouched : bool
}.

(** JavaScript values bound in the scopes the handler sees: strings, and
    everything else (functions, objects, booleans), which is truthy. *)
Inductive JsVal := VStr (s : string) | VObj.

Definition truthy (v : JsVal) : bool :=
  match v with VStr s => negb (String.eqb s "") | VObj => true end.

(** A scope chain: innermost scope first. *)
Definition Scope := list (string * JsVal).

Fixpoint lookup_scope (sc : Scope) (x : string) : option JsVal :=
  match sc with
  | [] => None
  | (y, v) :: r => if String.eqb x y then Some v else lookup_scope r x
  end.

Fixpoint resolve (chain : list Scope) (x : string) : option JsVal :=
  match chain with
  | [] => None
  | sc :: r => match lookup_scope sc x with
               | Some v => Some v
               | None => resolve r x
               end
  end.

(** Bindings of the [CalendarPicker] function body: its destructured props
    and every [const] it declares. *)
Definition component_scope : Scope :=
  map (fun x => (x, VObj))
    ["label"; "value"; "onChange"; "format"; "minDate"; "maxDate";
     "placeholder"; "disabled"; "required"; "isModalVisible";
     "setIsModalVisible"; "textValue"; "setTextValue"; "error"; "setError";
     "isTouched"; "setIsTouched"; "formatDate"; "parseDate";
     "toCalendarFormat"; "validateDate"; "handleTextChange"; "handleBlur";
     "handleDateSelect"; "handleClear"; "markedDates"; "minDateString";
     "maxDateString"; "hasError"; "borderColor"].

(** Bindings of the module: its imports and top-level declarations. *)
Definition module_scope : Scope :=
  map (fun x => (x, VObj))
    ["React"; "useState"; "useCallback"; "useMemo"; "View"; "Text";
     "TextInput"; "TouchableOpacity"; "Modal"; "StyleSheet"; "Platform";
     "Calendar"; "Ionicons"; "CalendarPicker"; "styles"].

(** Outcome of running an event handler: it returns normally with its
    result, or throws. *)
Inductive Outcome (A : Type) := Completed (a : A) | Threw (e : string).
Arguments Completed {A} a.
Arguments Threw {A} e.

(** [handleTextChange(text)]: the [const validationError] is scoped to the
    [if (isTouched) { ... }] block; the later [if (!validationError)]
    resolves the name in the handler's scope chain after that block has
    ended.  The result is the new state and what was passed to
    [onChange], if anything. *)
Definition handleTextChange (p : DateProps) (s : DateState) (text : string)
    : Outcome (DateState * option string) :=
  let s1 := {| textValue := text; error := error s; isTouched := isTouched s |} in
  let params : Scope := [("text", VStr text)] in
  let s2 :=
    if isTouched s then
      let block : Scope := [("validationError", VStr (validateDate p text))] in
      let validationError :=
        match resolve [block; params; component_scope; module_scope]
                "validationError" with
        | Some (VStr e) => e
        | _ => ""
        end in
      {| textValue := textValue s1; error := validationError;
         isTouched := isTouched s1 |}
    else s1 in
  match resolve [params; component_scope; module_scope] "validationError" with
  | None => Threw "ReferenceError: validationError is not defined"
  | Some v => Completed (s2, if negb (truthy v) then Some text else None)
  end.

End DateField.

(** ** FileSelectionSet ([FilePicker]) *)

Module FileSelection.
Import JsString.
Local Open Scope string_scope.
Local Open Scope Z_scope.

Record SelectedFile := {
  uri : string;
  name : string;
  size : Z;
  mimeType : option string
}.

(** An asset returned by the document picker; its [size] may be absent. *)
Record Asset := {
  a_uri : string;
  a_name : string;
  a_size : option Z;
  a_mimeType : option string
}.

(** The result of [DocumentPicker.getDocumentAsync]. *)
Inductive PickResult := Canceled | Picked (assets : list Asset).

Record FilePickerProps := {
  maxFiles : Z;
  maxSizePerFile : Z;
  maxTotalSize : Z;
  allowedTypes : list string;
  required : bool
}.

Record FileSetState := {
  files : list SelectedFile;
  error : string;
  isTouched : bool
}.

Definition starts_with (pre s : string) : bool := String.prefix pre s.

Definition ends_with (suf s : string) : bool :=
  let n := String.length s in
  let k := String.length suf in
  (Nat.leb k n && String.eqb (String.substring (n - k) k s) suf)%bool.

Definition lower (c : ascii) : ascii :=
  let n := nat_of_ascii c in
  if (Nat.leb 65 n && Nat.leb n 90)%bool then ascii_of_nat (n + 32) else c.

Definition toLowerCase (s : string) : string :=
  string_of_list_ascii (map lower (list_ascii_of_string s)).

(** [s.lastIndexOf(".")]: [-1] when there is none. *)
Fixpoint last_dot (l : list ascii) (i : Z) (acc : Z) : Z :=
  match l with
  | [] => acc
  | c :: r => last_dot r (i + 1) (if Ascii.eqb c "."%char then i else acc)
  end.

(** [getFileExtension]: [filename.slice(((lastIndexOf('.') - 1) >>> 0) + 2)];
    with no dot, or only a leading one, the unsigned shift sends the start
    past the end and the extension is empty. *)
Definition getFileExtension (filename : string) : string :=
  let i := last_dot (list_ascii_of_string filename) 0 (-1) in
  let start := (i - 1) mod 4294967296 + 2 in
  let len := Z.of_nat (String.length filename) in
  if len <=? start then ""
  else toLowerCase (String.substring (Z.to_nat start) (Z.to_nat (len - start)) filename).

(** [allowed.split('/')[0]] *)
Definition base_type (allowed : string) : string :=
  match DateField.split "/"%char allowed with
  | b :: _ => b
  | [] => ""
  end.

Definition isFileTypeAllowed (allowedTypes : list string)
    (mimeType : option string) (filename : string) : bool :=
  if existsb (String.eqb "*/*") allowedTypes then true else
  let by_mime :=
    match mimeType with
    | Some mt =>
        if String.eqb mt "" then false else
        existsb (fun allowed =>
          String.eqb allowed mt
          || (ends_with "/*" allowed && starts_with (base_type allowed ++ "/") mt))
          allowedTypes
    | None => false
    end in
  if by_mime then true else
  if String.eqb filename "" then false else
  let extension := getFileExtension filename in
  existsb (fun allowed =>
    starts_with "." allowed
    && String.eqb (String.substring 1 (String.length allowed - 1) allowed) extension)
    allowedTypes.

Definition total_size (l : list SelectedFile) : Z :=
  fold_left (fun sum f => sum + size f) l 0.

Definition max_files_message (n : Z) : string :=
  "Maximum " ++ DateField.js_String_int n ++ " file(s) allowed".

Section WithFormatter.

(** [formatFileSize] renders byte counts with floating-point division; the
    messages that contain it are built from it as an abstract function. *)
Variable formatFileSize : Z -> string.

(** [validateFiles] *)
Definition validateFiles (p : FilePickerProps) (selectedFiles : list SelectedFile)
    : string :=
  if required p && Nat.eqb (List.length selectedFiles) 0 then
    "At least one file is required" else
  if maxFiles p <? Z.of_nat (List.length selectedFiles) then
    max_files_message (maxFiles p) else
  match find (fun f => maxSizePerFile p <? size f) selectedFiles with
  | Some f => name f ++ " exceeds maximum size of " ++ formatFileSize (maxSizePerFile p)
  | None =>
      let totalSize := total_size selectedFiles in
      if maxTotalSize p <? totalSize then
        "Total size " ++ formatFileSize totalSize ++ " exceeds maximum of "
        ++ formatFileSize (maxTotalSize p)
      else ""
  end.

(** The alerts the picker raises. *)
Inductive AlertKind := LimitReached | InvalidFileType (n : string)
                     | FileTooLarge (n : string).

(** The per-asset filter of [handlePickFiles]: kept files and alerts. *)
Fixpoint filter_assets (p : FilePickerProps) (assets : list Asset)
    : list SelectedFile * list AlertKind :=
  match assets with
  | [] => ([], [])
  | a :: r =>
      let '(kept, alerts) := filter_assets p r in
      if negb (isFileTypeAllowed (allowedTypes p) (a_mimeType a) (a_name a))
      then (kept, InvalidFileType (a_name a) :: alerts)
      else match a_size a with
           | Some sz =>
               if negb (Z.eqb sz 0) && (maxSizePerFile p <? sz)
               then (kept, FileTooLarge (a_name a) :: alerts)
               else ({| uri := a_uri a; name := a_name a; size := sz;
                        mimeType := a_mimeType a |} :: kept, alerts)
           | None =>
               ({| uri := a_uri a; name := a_name a; size := 0;
                   mimeType := a_mimeType a |} :: kept, alerts)
           end
  end.

(** The [multiple] option passed to the picker. *)
Definition picker_multiple (p : FilePickerProps) (s : FileSetState) : bool :=
  Z.of_nat (List.length (files s)) + 1 <? maxFiles p.

(** What a handler run produces: the new state, the list passed to
    [onChange] (if called) and the alerts shown. *)
Record PickOutcome := {
  new_state : FileSetState;
  emitted : option (list SelectedFile);
  alerts : list AlertKind
}.

(** [handlePickFiles], with the picker's answer as input. *)
Definition handlePickFiles (p : FilePickerProps) (s : FileSetState)
    (result : PickResult) : PickOutcome :=
  let s0 := {| files := files s; error := error s; isTouched := true |} in
  if maxFiles p <=? Z.of_nat (List.length (files s)) then
    {| new_state := {| files := files s0; error := max_files_message (maxFiles p);
                       isTouched := true |};
       emitted := None; alerts := [LimitReached] |}
  else
  match result with
  | Canceled => {| new_state := s0; emitted := None; alerts := [] |}
  | Picked assets =>
      let '(newFiles, al) := filter_assets p assets in
      match newFiles with
      | [] => {| new_state := s0; emitted := None; alerts := al |}
      | _ =>
          let updatedFiles := firstn (Z.to_nat (maxFiles p)) (files s ++ newFiles) in
          let validationError := validateFiles p updatedFiles in
          if String.eqb validationError "" then
            {| new_state := {| files := updatedFiles; error := "";
                               isTouched := true |};
               emitted := Some updatedFiles; alerts := al |}
          else
            {| new_state := {| files := files s; error := validationError;
                               isTouched := true |};
               emitted := None; alerts := al |}
      end
  end.

(** [handleRemoveFile(index)] *)
Definition handleRemoveFile (p : FilePickerProps) (s : FileSetState) (index : nat)
    : FileSetState :=
  let updatedFiles :=
    map snd (filter (fun '(i, _) => negb (Nat.eqb i index))
                    (combine (seq 0 (List.length (files s))) (files s))) in
  {| files := updatedFiles; error := validateFiles p updatedFiles;
     isTouched := isTouched s |}.

End WithFormatter.

(** [handleClearAll] *)
Definition handleClearAll (s : FileSetState) : FileSetState :=
  {| files := []; error := ""; isTouched := isTouched s |}.

(** Mounting: [useState(value)], [useState('')], [useState(false)]. *)
Definition mount (value : list SelectedFile) : FileSetState :=
  {| files := value; error := ""; isTouched := false |}.

Definition currentFiles (s : FileSetState) : list SelectedFile := files s.
Definition currentError (s : FileSetState) : string := error s.

Definition default_props : FilePickerProps :=
  {| maxFiles := 3; maxSizePerFile := 5 * 1024 * 1024;
     maxTotalSize := 15 * 1024 * 1024; allowedTypes := ["*/*"];
     required := false |}.

Definition sample_asset (n : string) : Asset :=
  {| a_uri := "file:///" ++ n; a_name := n; a_size := Some 1000;
     a_mimeType := Some "application/pdf" |}.

End FileSelection.

(** ** AnimatedCounter ([CounterTimer]) *)

(** The component runs on two threads: the JS thread runs the handlers
    and React state updates; the UI thread runs the Reanimated animation of
    the shared value [progress].  A finished animation calls its callback on
    the UI thread, which queues [setState('completed')] and [onComplete()]
    to the JS thread through [runOnJS]; the queue is delivered later, in
    order.  Canceling an animation (by [cancelAnimation] or by assigning
    [progress.value]) calls its callback with [finished = false], which
    queues nothing. *)

Module Counter.
Local Open Scope Q_scope.

Inductive TimerState := idle | running | paused | completed.

Inductive EasingName := linear | easeInOut | easeOut.

Record CounterProps := {
  targetNumber : Q;
  durationSec : Q;
  onComplete : bool;          (* whether the prop is given *)
  easing : EasingName
}.

(** [Math.max(0.1, Math.min(3600, durationSec || 1))] *)
Definition validDuration (p : CounterProps) : Q :=
  let d := if Qeq_bool (durationSec p) 0 then 1 else durationSec p in
  Qmax (1 # 10) (Qmin 3600 d).

(** A [withTiming(1, {duration, easing}, callback)] animation: it starts at
    [a_from], has run for [a_elapsed] ms, and carries the run number
    [a_id]. *)
Record Anim := {
  a_id : nat;
  a_from : Q;
  a_duration : Q;
  a_easing : EasingName;
  a_elapsed : Q
}.

(** What [runOnJS] queues for the JS thread. *)
Inductive JsMsg := MsgSetCompleted | MsgOnComplete (id : nat).

(** The whole system.  [fired] records the [onComplete] calls (by run
    number); [finished] and [canceled] are ghost records of the runs that
    reached 1 and of those canceled before. *)
Record Sys := {
  state : TimerState;
  progress : Q;
  anim : option Anim;
  pending : list JsMsg;
  fired : list nat;
  next_id : nat;
  finished : list nat;
  canceled : list nat
}.

Definition init_sys : Sys :=
  {| state := idle; progress := 0; anim := None; pending := []; fired := [];
     next_id := 0; finished := []; canceled := [] |}.

Inductive Event :=
| EStart | EStop | EReset | ERestart   (* JS thread: button handlers *)
| EDeliver                            (* JS thread: next queued runOnJS call *)
| ETick (dt : Q).                     (* UI thread: animation frame *)

Section WithEasing.

(** The easing curves of Reanimated, as functions of the elapsed fraction. *)
Variable curve : EasingName -> Q -> Q.

(** Cancel the in-flight animation, if any: its callback gets
    [finished = false]. *)
Definition cancel (s : Sys) : Sys :=
  match anim s with
  | None => s
  | Some a =>
      {| state := state s; progress := progress s; anim := None;
         pending := pending s; fired := fired s; next_id := next_id s;
         finished := finished s; canceled := canceled s ++ [a_id a] |}
  end.

Definition set_state (st : TimerState) (s : Sys) : Sys :=
  {| state := st; progress := progress s; anim := anim s; pending := pending s;
     fired := fired s; next_id := next_id s; finished := finished s;
     canceled := canceled s |}.

(** [progress.value = v]: assigning a value cancels the running animation. *)
Definition assign (v : Q) (s : Sys) : Sys :=
  let s1 := cancel s in
  {| state := state s1; progress := v; anim := None; pending := pending s1;
     fired := fired s1; next_id := next_id s1; finished := finished s1;
     canceled := canceled s1 |}.

(** [progress.value = withTiming(1, {duration, easing}, cb)]: the new
    animation replaces (cancels) the running one and starts from the
    current value. *)
Definition animate (duration : Q) (e : EasingName) (s : Sys) : Sys :=
  let s1 := cancel s in
  {| state := state s1; progress := progress s1;
     anim := Some {| a_id := next_id s1; a_from := progress s1;
                     a_duration := duration; a_easing := e; a_elapsed := 0 |};
     pending := pending s1; fired := fired s1; next_id := S (next_id s1);
     finished := finished s1; canceled := canceled s1 |}.

Definition handleStart (p : CounterProps) (s : Sys) : Sys :=
  match state s with
  | idle | completed =>
      animate (validDuration p * 1000) (easing p) (assign 0 (set_state running s))
  | paused =>
      let remainingProgress := 1 - progress s in
      let remainingDuration := validDuration p * 1000 * remainingProgress in
      animate remainingDuration (easing p) (set_state running s)
  | running => s
  end.

Definition handleStop (s : Sys) : Sys :=
  match state s with
  | running => cancel (set_state paused s)
  | _ => s
  end.

Definition handleReset (s : Sys) : Sys :=
  assign 0 (cancel (set_state idle s)).

Definition handleRestart (p : CounterProps) (s : Sys) : Sys :=
  animate (validDuration p * 1000) (easing p)
    (assign 0 (set_state running (cancel s))).

(** Deliver the oldest queued [runOnJS] call. *)
Definition deliver (s : Sys) : Sys :=
  match pending s with
  | [] => s
  | MsgSetCompleted :: r =>
      {| state := completed; progress := progress s; anim := anim s; pending := r;
         fired := fired s; next_id := next_id s; finished := finished s;
         canceled := canceled s |}
  | MsgOnComplete id :: r =>
      {| state := state s; progress := progress s; anim := anim s; pending := r;
         fired := fired s ++ [id]; next_id := next_id s; finished := finished s;
         canceled := canceled s |}
  end.

(** An animation frame [dt] ms later: the value follows the easing curve;
    at the end it is 1, the animation is over and its callback, with
    [finished = true], queues the completion to the JS thread. *)
Definition tick (p : CounterProps) (dt : Q) (s : Sys) : Sys :=
  match anim s with
  | None => s
  | Some a =>
      let e := a_elapsed a + dt in
      if Qle_bool (a_duration a) e then
        {| state := state s; progress := 1; anim := None;
           pending := pending s ++ (MsgSetCompleted ::
                        if onComplete p then [MsgOnComplete (a_id a)] else []);
           fired := fired s; next_id := next_id s;
           finished := finished s ++ [a_id a]; canceled := canceled s |}
      else
        {| state := state s;
           progress := a_from a + (1 - a_from a) * curve (a_easing a) (e / a_duration a);
           anim := Some {| a_id := a_id a; a_from := a_from a;
                           a_duration := a_duration a; a_easing := a_easing a;
                           a_elapsed := e |};
           pending := pending s; fired := fired s; next_id := next_id s;
           finished := finished s; canceled := canceled s |}
  end.

Definition step (p : CounterProps) (s : Sys) (ev : Event) : Sys :=
  match ev with
  | EStart => handleStart p s
  | EStop => handleStop s
  | EReset => handleReset s
  | ERestart => handleRestart p s
  | EDeliver => deliver s
  | ETick dt => tick p dt s
  end.

Definition run (p : CounterProps) (s : Sys) (evs : list Event) : Sys :=
  fold_left (step p) evs s.

End WithEasing.

Definition pending_ids (l : list JsMsg) : list nat :=
  flat_map (fun m => match m with MsgOnComplete id => [id] | _ => [] end) l.

(** [Easing.linear] *)
Definition linear_only (e : EasingName) (t : Q) : Q := t.

Definition one_second_props : CounterProps :=
  {| targetNumber := 100; durationSec := 1; onComplete := true; easing := linear |}.

End Counter.

(** ** The rest of [CalendarPicker]: calendar selection, clear, blur *)

Module DateControl.
Import JsString DateField.
Local Open Scope string_scope.
Local Open Scope Z_scope.

(** [toCalendarFormat(date)]: [`${year}-${month}-${day}`]. *)
Definition toCalendarFormat (date : Z) : string :=
  let year := getFullYear date in
  let month := padStart2 (js_String_int (getMonth date + 1)) in
  let day := padStart2 (js_String_int (getDate date)) in
  js_String_int year ++ "-" ++ month ++ "-" ++ day.





(** [handleBlur] *)
Definition handleBlur (p : DateProps) (s : DateState) : DateState :=
  {| textValue := textValue s; error := validateDate p (textValue s);
     isTouched := true |}.


(** [handleClear]: the new state and the text passed to [onChange]. *)
Definition handleClear (s : DateState) : DateState * string :=
  ({| textValue := ""; error := ""; isTouched := isTouched s |}, "").

(** The key of [markedDates] (the highlighted calendar day), if any. *)
Definition markedDates (p : DateProps) (textValue : string) : option string :=
  if String.eqb textValue "" then None else
  match parseDate (format p) textValue with
  | None => None
  | Some date => Some (toCalendarFormat date)
  end.

(** [minDateString] and [maxDateString] *)
Definition minDateString (p : DateProps) : option string :=
  option_map toCalendarFormat (minDate p).
Definition maxDateString (p : DateProps) : option string :=
  option_map toCalendarFormat (maxDate p).

Definition hasError (s : DateState) : bool :=
  isTouched s && negb (Nat.eqb (String.length (error s)) 0).

End DateControl.

(** ** FilePicker: sequences of user operations *)

Module FileSession.
Import FileSelection.
Local Open Scope Z_scope.

(** What the user can do: pick (with the picker's answer), press the
    remove button of an entry, press "Clear All". *)
Inductive FileOp := OpPick (r : PickResult) | OpRemove (index : nat) | OpClear.

Definition file_step (fmt : Z -> string) (p : FilePickerProps)
    (s : FileSetState) (op : FileOp) : FileSetState :=
  match op with
  | OpPick r => new_state (handlePickFiles fmt p s r)
  | OpRemove i => handleRemoveFile fmt p s i
  | OpClear => handleClearAll s
  end.

Definition run_files (fmt : Z -> string) (p : FilePickerProps)
    (s : FileSetState) (ops : list FileOp) : FileSetState :=
  fold_left (file_step fmt p) ops s.

(** [getTotalSize] *)
Definition getTotalSize (s : FileSetState) : Z := total_size (files s).

(** The limits a file list keeps: count, size of each file (sizes are
    byte counts, not negative), total size. *)
Definition files_ok (p : FilePickerProps) (l : list SelectedFile) : Prop :=
  Z.of_nat (List.length l) <= maxFiles p
  /\ Forall (fun f => 0 <= size f <= maxSizePerFile p) l
  /\ total_size l <= maxTotalSize p.

(** The picker's answers report no negative size. *)
Definition asset_sizes_ok (r : PickResult) : Prop :=
  match r with
  | Canceled => True
  | Picked assets => Forall (fun a => match a_size a with
                                      | Some n => 0 <= n
                                      | None => True
                                      end) assets
  end.

Definition op_ok (op : FileOp) : Prop :=
  match op with OpPick r => asset_sizes_ok r | _ => True end.

End FileSession.

(** ** OnboardingScreen: the form, its fields, and the client-side check *)

Module Screen.
Import JsString ValidationEngine.
Local Open Scope string_scope.

(** A [CustomTextInput] bound by the screen as
    [value={v} onChangeText={setV} onValidate={setValid}]: the screen's
    value, the flag [onValidate] last set, and the field's own state. *)
Record BoundField := {
  bf_value : string;
  bf_valid : bool;
  bf_field : FieldState
}.

Definition bound_init : BoundField :=
  {| bf_value := ""; bf_valid := false; bf_field := initial_field |}.

Definition bound_props (rules : list ValidationRule) (v : string) : FieldProps :=
  {| externalValue := Some v; validators := rules |}.

(** One event on the bound field: the handlers of [CustomTextInput] with the
    screen's current value as [value]; [onChangeText] sets the screen's
    value, [onValidate(validationErrors.length === 0)] is called on a
    change of a touched field and on every blur. *)
Definition bound_step (rules : list ValidationRule) (b : BoundField)
    (e : FieldEvent) : BoundField :=
  let p := bound_props rules (bf_value b) in
  match e with
  | EvChangeText t =>
      {| bf_value := t;
         bf_valid := if isTouched (bf_field b)
                     then Nat.eqb (List.length (validate rules t)) 0
                     else bf_valid b;
         bf_field := handleChangeText p (bf_field b) t |}
  | EvFocus =>
      {| bf_value := bf_value b; bf_valid := bf_valid b;
         bf_field := handleFocus (bf_field b) |}
  | EvBlur =>
      {| bf_value := bf_value b;
         bf_valid := Nat.eqb (List.length (validate rules (bf_value b))) 0;
         bf_field := handleBlur p (bf_field b) |}
  end.

Definition run_bound (rules : list ValidationRule) (b : BoundField)
    (es : list FieldEvent) : BoundField :=
  fold_left (bound_step rules) es b.

(** The screen's rules for the name and the email fields. *)
Definition nameRules : list ValidationRule :=
  [RRequired "Name is required";
   RMinLength (Some 2%Z) "Name must be at least 2 characters";
   RMaxLength (Some 100%Z) "Name must not exceed 100 characters"].

Definition emailRules : list ValidationRule :=
  [RRequired "Email is required"; REmail "Invalid email format"].

(** [DocumentFile] *)
Record DocumentFile := {
  d_name : string;
  d_size : Z;
  d_mimeType : option string;
  d_uri : string
}.

(** [OnboardingSubmitRequest] *)
Record SubmitRequest := {
  r_name : string;
  r_email : string;
  r_startDate : string;
  r_documents : list DocumentFile
}.

Definition blank (s : string) : bool := Nat.eqb (String.length (trim s)) 0.

(** [OnboardingService.validateOnboardingData] (the strings are never
    [undefined] here: [!s] is [s === ""], which [blank] covers). *)
Definition validateOnboardingData (data : SubmitRequest) : bool * list string :=
  let e1 := if String.eqb (r_name data) "" || blank (r_name data)
            then ["Name is required"] else [] in
  let e2 := if String.eqb (r_email data) "" || blank (r_email data)
            then ["Email is required"]
            else if negb (email_test (r_email data))
                 then ["Invalid email format"] else [] in
  let e3 := if String.eqb (r_startDate data) "" || blank (r_startDate data)
            then ["Start date is required"] else [] in
  let e4 := if Nat.eqb (List.length (r_documents data)) 0
            then ["At least one document is required"] else [] in
  let errors := (e1 ++ e2 ++ e3 ++ e4)%list in
  (Nat.eqb (List.length errors) 0, errors).

(** The screen's form state that [isFormValid] reads. *)
Record Form := {
  nameField : BoundField;
  emailField : BoundField;
  startDate : string;
  documents : list DocumentFile
}.

(** [isFormValid()] of [OnboardingScreen]. *)
Definition isFormValid (f : Form) : bool :=
  negb (blank (bf_value (nameField f)))
  && negb (blank (bf_value (emailField f)))
  && bf_valid (emailField f)
  && negb (blank (startDate f))
  && negb (Nat.eqb (List.length (documents f)) 0).

(** The request [handleSubmit] builds from the form. *)
Definition form_request (f : Form) : SubmitRequest :=
  {| r_name := bf_value (nameField f); r_email := bf_value (emailField f);
     r_startDate := startDate f; r_documents := documents f |}.

End Screen.

(** ** The backend (src/backend/worker.js) and its client (src/utils/api.ts) *)

Module Backend.
Import JsString ValidationEngine Screen.
Local Open Scope string_scope.
Local Open Scope Z_scope.

Local Set Warnings "-register-all".

(** JSON values as [request.json()] returns them; numbers are rationals
    (the code only tests their truthiness). *)
Inductive JVal :=
| JUndefined | JNull | JBool (b : bool) | JNum (n : Q) | JStr (s : string)
| JArr (items : list JVal) | JObj (fields : list (string * JVal)).

Definition truthy (v : JVal) : bool :=
  match v with
  | JUndefined | JNull => false
  | JBool b => b
  | JNum n => negb (Qeq_bool n 0)
  | JStr s => negb (String.eqb s "")
  | JArr _ | JObj _ => true
  end.

(** [v.k]: on an object the last binding of [k] (the one [JSON.parse]
    keeps); [undefined] on other values; [None] is the [TypeError] of a
    property read on [null] or [undefined]. *)
Definition get (v : JVal) (k : string) : option JVal :=
  match v with
  | JUndefined | JNull => None
  | JObj fs => Some (fold_left (fun acc kv => if String.eqb k (fst kv) then snd kv else acc)
                               fs JUndefined)
  | _ => Some JUndefined
  end.

(** [v?.k] *)
Definition get_opt (v : JVal) (k : string) : JVal :=
  match get v k with Some x => x | None => JUndefined end.

(** [JSON.parse(JSON.stringify(v))] for a value holding no functions:
    object members that are [undefined] are dropped, array elements that
    are [undefined] become [null]. *)
Fixpoint json_normalize (v : JVal) : JVal :=
  match v with
  | JArr l => JArr (map (fun x => match x with
                                  | JUndefined => JNull
                                  | _ => json_normalize x
                                  end) l)
  | JObj fs => JObj ((fix go (fs : list (string * JVal)) :=
                        match fs with
                        | [] => []
                        | (k, JUndefined) :: r => go r
                        | (k, x) :: r => (k, json_normalize x) :: go r
                        end) fs)
  | _ => v
  end.

Fixpoint join (sep : string) (l : list string) : string :=
  match l with
  | [] => ""
  | [x] => x
  | x :: r => x ++ sep ++ join sep r
  end.

(** [validateOnboardingData] of the worker: [None] is the [TypeError] of
    reading a property of [null] or [undefined] data. *)
Definition worker_validate (data : JVal) : option (bool * list string) :=
  match get data "name", get data "email", get data "startDate",
        get data "documents" with
  | Some nm, Some em, Some sd, Some docs =>
      let e1 := if negb (truthy nm) then ["Name is required"] else
                match nm with
                | JStr s => if Nat.eqb (String.length (trim s)) 0
                            then ["Name is required"] else []
                | _ => ["Name is required"]
                end in
      let e2 := if negb (truthy em) then ["Email is required"] else
                match em with
                | JStr s => if negb (email_test s) then ["Invalid email format"] else []
                | _ => ["Email is required"]
                end in
      let e3 := if negb (truthy sd) then ["Start date is required"] else
                match sd with JStr _ => [] | _ => ["Start date is required"] end in
      let e4 := if negb (truthy docs) then ["At least one document is required"] else
                match docs with
                | JArr l => if Nat.eqb (List.length l) 0
                            then ["At least one document is required"] else []
                | _ => ["At least one document is required"]
                end in
      let errors := (e1 ++ e2 ++ e3 ++ e4)%list in
      Some (Nat.eqb (List.length errors) 0, errors)
  | _, _, _, _ => None
  end.

Fixpoint map_opt {A B : Type} (f : A -> option B) (l : list A) : option (list B) :=
  match l with
  | [] => Some []
  | x :: r => match f x, map_opt f r with
              | Some y, Some ys => Some (y :: ys)
              | _, _ => None
              end
  end.

(** [doc.base64 ? doc.base64.substring(0, 100) + '...[truncated]' : undefined];
    [None] is the [TypeError] of calling [substring] on a truthy
    non-string. *)
Definition truncate_base64 (b : JVal) : option JVal :=
  if truthy b then
    match b with
    | JStr s => Some (JStr (String.substring 0 100 s ++ "...[truncated]"))
    | _ => None
    end
  else Some JUndefined.

(** The stored form of one document. *)
Definition store_doc (doc : JVal) : option JVal :=
  match get doc "name", get doc "size", get doc "mimeType", get doc "base64" with
  | Some n, Some sz, Some mt, Some b =>
      match truncate_base64 b with
      | Some b' => Some (JObj [("name", n); ("size", sz); ("mimeType", mt);
                               ("base64", b')])
      | None => None
      end
  | _, _, _, _ => None
  end.

(** [generateId()]: [Date.now()] and the base-36 digits of
    [Math.random()] are its inputs. *)
Definition generateId (now : Z) (rnd : string) : string :=
  "onboard_" ++ DateField.js_String_int now ++ "_" ++ rnd.

(** A KV entry: the JSON text of a value, or the text of a generated id
    (the email index). *)
Inductive KVal := KJson (v : JVal) | KId (now : Z) (rnd : string).

(** The KV namespace; [put] shadows the previous binding of its key. *)
Definition Store := list (string * KVal).


Definition kv_put (st : Store) (k : string) (v : KVal) : Store := (k, v) :: st.

Record Response := { status : Z; body : JVal }.

Definition json_response (st : Z) (b : JVal) : Response := {| status := st; body := b |}.

Definition server_error : Response :=
  json_response 500 (JObj [("success", JBool false); ("error", JStr "Internal server error")]).

Definition string_of (v : JVal) : string := match v with JStr s => s | _ => "" end.

(** [handleSubmitOnboarding]: the request body ([None] when
    [request.json()] throws), the clock ([Date.now()] and the ISO text of
    [new Date()]) and the random digits of [generateId]. *)
Definition handleSubmitOnboarding (reqBody : option JVal) (now : Z) (nowIso rnd : string)
    (st : Store) : Response * Store :=
  match reqBody with
  | None => (server_error, st)
  | Some data =>
      match worker_validate data with
      | None => (server_error, st)
      | Some (false, errors) =>
          (json_response 400 (JObj [("success", JBool false);
                                    ("error", JStr (join ", " errors))]), st)
      | Some (true, _) =>
          let docs := match get data "documents" with
                      | Some (JArr l) => map_opt store_doc l
                      | _ => None
                      end in
          match docs with
          | None => (server_error, st)
          | Some docs' =>
              let id := generateId now rnd in
              let submittedAt := let s := get_opt data "submittedAt" in
                                 if truthy s then s else JStr nowIso in
              let onboardingData :=
                JObj [("id", JStr id); ("name", get_opt data "name");
                      ("email", get_opt data "email");
                      ("startDate", get_opt data "startDate");
                      ("documents", JArr docs'); ("createdAt", JStr nowIso);
                      ("updatedAt", JStr nowIso); ("submittedAt", submittedAt)] in
              let st1 := kv_put st id (KJson onboardingData) in
              let st2 := kv_put st1 ("email:" ++ string_of (get_opt data "email"))
                                (KId now rnd) in
              (json_response 201 (JObj [("success", JBool true);
                                        ("data", onboardingData);
                                        ("message", JStr "Onboarding submitted successfully")]),
               st2)
          end
      end
  end.


(** The routing of [fetch]. *)
Inductive Route := ROptions | RSubmit | RGet (id : string) | RHealth | RNotFound.

Definition route (method path : string) : Route :=
  if String.eqb method "OPTIONS" then ROptions else
  if String.eqb path "/api/onboard" && String.eqb method "POST" then RSubmit else
  if String.prefix "/api/onboard/" path && String.eqb method "GET" then
    RGet (last (DateField.split "/"%char path) "")
  else if String.eqb path "/health" || String.eqb path "/" then RHealth
  else RNotFound.

(** [submitOnboarding]'s payload: [{...data, documents, submittedAt}], each
    document with the [base64] text when [fileToBase64] succeeded. *)
Definition encode_doc (d : DocumentFile) (b64 : option string) : JVal :=
  JObj ([("name", JStr (d_name d)); ("size", JNum (inject_Z (d_size d)));
         ("mimeType", match d_mimeType d with Some m => JStr m | None => JUndefined end);
         ("uri", JStr (d_uri d))]
        ++ match b64 with Some b => [("base64", JStr b)] | None => [] end)%list.

Definition payload (data : SubmitRequest) (b64s : list (option string))
    (nowIso : string) : JVal :=
  JObj [("name", JStr (r_name data)); ("email", JStr (r_email data));
        ("startDate", JStr (r_startDate data));
        ("documents", JArr (map (fun '(d, b) => encode_doc d b)
                               (combine (r_documents data) b64s)));
        ("submittedAt", JStr nowIso)].

(** The [error.response] of a rejected axios request, and [handleError]'s
    [message]: [data?.message || data?.error || 'Server error occurred']. *)
Definition handleError_message (data : JVal) : JVal :=
  let m := get_opt data "message" in
  if truthy m then m else
  let e := get_opt data "error" in
  if truthy e then e else JStr "Server error occurred".

(** What [submitOnboarding] resolves to, given the worker's response:
    axios resolves on a 2xx status with the parsed body and rejects
    otherwise; the rejection becomes [{success: false, error: message}]. *)
Definition client_result (r : Response) : JVal :=
  let data := json_normalize (body r) in
  if (200 <=? status r) && (status r <? 300) then data
  else JObj [("success", JBool false); ("error", handleError_message data)].

(** The alert [handleSubmit] shows for a result. *)
Definition submit_alert (res : JVal) : string * JVal :=
  if truthy (get_opt res "success") then
    ("Success", let m := get_opt res "message" in
                if truthy m then m else JStr "Onboarding submitted successfully!")
  else ("Error", let e := get_opt res "error" in
                 if truthy e then e else JStr "Failed to submit onboarding").

End Backend.

(** ** CounterTimer: what it displays *)

Module CounterDisplay.
Import Counter.
Local Open Scope Q_scope.

(** [validTarget = Math.max(0, targetNumber || 0)] *)
Definition validTarget (p : CounterProps) : Q :=
  Qmax 0 (if Qeq_bool (targetNumber p) 0 then 0 else targetNumber p).

(** [Math.round]: the nearest integer, halves rounded up. *)
Definition js_round (x : Q) : Z := Qfloor (x + (1 # 2)).

(** The default [format]: [Math.round(val).toString()], applied every
    16 ms to [progress.value * validTarget]. *)
Definition displayValue (p : CounterProps) (progress : Q) : string :=
  DateField.js_String_int (js_round (progress * validTarget p)).

(** The ranges the animation keeps: progress in [0..1], and for the
    animation in flight a start value in [0..1], a non-negative duration and
    elapsed time. *)
Definition in_range (s : Sys) : Prop :=
  0 <= progress s <= 1
  /\ (forall a, anim s = Some a ->
        0 <= a_from a <= 1 /\ 0 <= a_duration a /\ 0 <= a_elapsed a).

Definition tick_ok (ev : Event) : Prop :=
  match ev with ETick dt => 0 <= dt | _ => True end.

End CounterDisplay.

(* ================================================================== *)
(** * Proofs *)
(* ================================================================== *)

(** ** ValidationEngine *)

Module ValidationProofs.
Import JsString ValidationEngine.

Lemma split_at_at_app (a b : list ascii) :
  forallb no_space_no_at a = true ->
  split_at_at (a ++ "@"%char :: b) = Some (a, b).
Proof.
  induction a as [|c a IH]; simpl; intros H.
  - reflexivity.
  - apply andb_prop in H as [Hc Ha]. unfold no_space_no_at in Hc.
    apply andb_prop in Hc as [_ Hc].
    destruct (Ascii.eqb c "@"%char); [discriminate|]. now rewrite IH.
Qed.

Lemma split_at_at_inv (l a b : list ascii) :
  split_at_at l = Some (a, b) -> l = a ++ "@"%char :: b.
Proof.
  revert a b. induction l as [|c l IH]; simpl; intros a b H; [discriminate|].
  destruct (Ascii.eqb c "@"%char) eqn:E.
  - apply Ascii.eqb_eq in E. inversion H; subst. reflexivity.
  - destruct (split_at_at l) as [[a' b']|] eqn:E'; [|discriminate].
    inversion H; subst. simpl. f_equal. now apply IH.
Qed.

Lemma dot_inside_spec (seen : bool) (b : list ascii) :
  dot_inside seen b = true <->
  exists d t, b = d ++ "."%char :: t /\ (d <> [] \/ seen = true) /\ t <> [].
Proof.
  revert seen. induction b as [|c r IH]; intros seen; simpl.
  - split; [discriminate|]. intros (d & t & E & _). destruct d; discriminate.
  - split.
    + intros H. apply orb_prop in H as [H|H].
      * apply andb_prop in H as [H Hr]. apply andb_prop in H as [Hs Hc].
        apply Ascii.eqb_eq in Hc. subst c.
        exists [], r. repeat split; [now right|].
        destruct r; [discriminate|congruence].
      * apply IH in H as (d & t & E & _ & Ht). subst r.
        exists (c :: d), t. repeat split; [left; congruence | exact Ht].
    + intros (d & t & E & Hd & Ht). destruct d as [|c' d].
      * simpl in E. inversion E; subst. destruct Hd as [Hd|Hd]; [congruence|].
        subst seen. rewrite Ascii.eqb_refl. destruct t; [congruence|].
        reflexivity.
      * simpl in E. inversion E; subst. apply orb_true_iff. right.
        apply IH. exists d, t. repeat split; [now right | exact Ht].
Qed.

Lemma email_test_spec (s : string) : email_test s = true <-> email_shape s.
Proof.
  unfold email_test, email_shape. split.
  - destruct (split_at_at (list_ascii_of_string s)) as [[a b]|] eqn:E;
      [|discriminate].
    intros H. apply split_at_at_inv in E.
    apply andb_prop in H as [H Hd]. apply andb_prop in H as [H Hb].
    apply andb_prop in H as [Hne Ha].
    apply dot_inside_spec in Hd as (d & t & Eb & Hd & Ht).
    destruct Hd as [Hd|Hd]; [|discriminate]. subst b.
    exists a, d, t. repeat split; auto.
    + destruct a; [discriminate|congruence].
    + rewrite forallb_app in Hb. simpl in Hb.
      apply andb_prop in Hb as [Hb1 Hb2].
      rewrite !forallb_app, Ha, Hb1, Hb2. reflexivity.
  - intros (loc & dom & tld & E & Hl & Hd & Ht & Hall).
    rewrite !forallb_app in Hall.
    apply andb_prop in Hall as [Hloc Hall]. apply andb_prop in Hall as [Hdom Htld].
    rewrite E, (split_at_at_app _ _ Hloc), Hloc.
    destruct loc as [|c loc]; [congruence|]. simpl.
    rewrite forallb_app. simpl. rewrite Hdom, Htld. simpl.
    apply dot_inside_spec. exists dom, tld. repeat split; auto.
Qed.

Lemma rule_fails_spec (v : string) (r : ValidationRule) :
  rule_fails v r = true <-> ~ rule_satisfied v r.
Proof.
  destruct r as [m | [n|] m | [n|] m | [t|] m | m | [p|] m]; simpl.
  - destruct (String.eqb_spec (trim v) ""); split; intros H; try tauto.
    discriminate.
  - rewrite Z.ltb_lt. lia.
  - split; [discriminate | tauto].
  - rewrite Z.ltb_lt. lia.
  - split; [discriminate | tauto].
  - destruct (String.eqb_spec v ""); destruct (t v); simpl;
      intuition congruence.
  - split; [discriminate | tauto].
  - pose proof (email_test_spec v) as Hs.
    destruct (String.eqb_spec v ""); destruct (email_test v); simpl;
      intuition congruence.
  - destruct (p v); simpl; intuition congruence.
  - split; [discriminate | tauto].
Qed.

Lemma rule_satisfied_of_not_fails (v : string) (r : ValidationRule) :
  rule_fails v r = false -> rule_satisfied v r.
Proof.
  destruct r as [m | [n|] m | [n|] m | [t|] m | m | [p|] m]; simpl; intros H;
    auto.
  - destruct (String.eqb_spec (trim v) ""); [discriminate | assumption].
  - apply Z.ltb_ge in H. lia.
  - apply Z.ltb_ge in H. lia.
  - destruct (String.eqb_spec v ""); [now left|]. right.
    destruct (t v); [reflexivity | discriminate].
  - destruct (String.eqb_spec v ""); [now left|]. right.
    apply email_test_spec. destruct (email_test v); [reflexivity | discriminate].
  - destruct (p v); [reflexivity | discriminate].
Qed.

Lemma validate_step_spec (v : string) (acc : list string) (r : ValidationRule) :
  validate_step v acc r =
  acc ++ (if rule_fails v r then [rule_message r] else []).
Proof.
  destruct r as [m | [n|] m | [n|] m | [t|] m | m | [p|] m]; simpl;
    repeat match goal with |- context [if ?b then _ else _] => destruct b end;
    simpl; rewrite ?app_nil_r; reflexivity.
Qed.

Lemma fold_validate_step (v : string) (R : list ValidationRule) (acc : list string) :
  fold_left (validate_step v) R acc =
  acc ++ map rule_message (filter (rule_fails v) R).
Proof.
  revert acc. induction R as [|r R IH]; intros acc; simpl.
  - now rewrite app_nil_r.
  - rewrite IH, validate_step_spec. destruct (rule_fails v r); simpl.
    + now rewrite <- app_assoc.
    + now rewrite app_nil_r.
Qed.

(** C2: [validate] checks every rule whatever the earlier outcomes: its
    result is the messages of exactly the failing rules, in declaration
    order, and it is empty iff the value satisfies every rule. *)
Theorem validate_collects_failures_in_order
    (R : list ValidationRule) (v : string) :
  validate R v = map rule_message (filter (rule_fails v) R)
  /\ Forall (fun r => rule_fails v r = true <-> ~ rule_satisfied v r) R
  /\ (validate R v = [] <-> Forall (rule_satisfied v) R).
Proof.
  unfold validate. rewrite fold_validate_step. simpl.
  split; [reflexivity|]. split.
  - apply Forall_forall. intros r _. apply rule_fails_spec.
  - induction R as [|r R IH]; simpl.
    + split; auto.
    + destruct (rule_fails v r) eqn:E; simpl.
      * split; [discriminate|]. intros HF. inversion HF; subst.
        apply rule_fails_spec in E. contradiction.
      * rewrite IH. split.
        -- intros HF. constructor; auto.
           now apply rule_satisfied_of_not_fails.
        -- intros HF. now inversion HF.
Qed.

Lemma run_field_no_blur_untouched (p : FieldProps) (es : list FieldEvent)
    (s : FieldState) :
  isTouched s = false -> forallb (fun e => negb (is_blur e)) es = true ->
  isTouched (run_field p s es) = false.
Proof.
  unfold run_field. revert s. induction es as [|e es IH]; simpl; intros s Hs Hes.
  - exact Hs.
  - apply andb_prop in Hes as [He Hes]. apply IH; [|exact Hes].
    destruct e; simpl in *; try discriminate.
    + unfold handleChangeText. rewrite Hs.
      destruct (externalValue p); simpl; [exact Hs | reflexivity].
    + exact Hs.
Qed.

(** C8: a text field with value [""] and rules [[required]]: no error is
    shown before the first blur (whatever focus and change events happen
    before it), the blur turns [hasError] on and shows the rule's message,
    and in every state the flags are
    [hasError = touched && errors.nonEmpty()] and
    [isSuccess = touched && errors.isEmpty() && value.trim().nonEmpty()]. *)
Theorem text_field_required_blur (p : FieldProps) (m : string) :
  validators p = [RRequired m] ->
  current_value p initial_field = ""%string ->
  hasError initial_field = false
  /\ (forall es, forallb (fun e => negb (is_blur e)) es = true ->
        hasError (run_field p initial_field es) = false)
  /\ hasError (handleBlur p initial_field) = true
  /\ shown_messages (handleBlur p initial_field) = [m]
  /\ (forall s, hasError s = isTouched s && negb (Nat.eqb (List.length (errors s)) 0)
        /\ isSuccess p s = isTouched s && Nat.eqb (List.length (errors s)) 0
                           && negb (Nat.eqb (String.length (trim (current_value p s))) 0)).
Proof.
  intros Hv Hval. repeat split.
  - intros es Hes. unfold hasError.
    rewrite (run_field_no_blur_untouched p es initial_field eq_refl Hes).
    reflexivity.
  - unfold hasError, handleBlur. simpl. rewrite Hv, Hval. reflexivity.
  - unfold shown_messages, hasError, handleBlur. simpl. rewrite Hv, Hval.
    reflexivity.
Qed.

(** Controlled and uncontrolled instances of C8. *)
Lemma text_field_required_blur_witness :
  hasError (handleBlur {| externalValue := None; validators := [RRequired "Name is required"] |}
              initial_field) = true
  /\ shown_messages (handleBlur {| externalValue := Some ""%string;
                                  validators := [RRequired "Name is required"] |}
                       initial_field) = ["Name is required"%string].
Proof.
  split.
  - apply (text_field_required_blur
             {| externalValue := None; validators := [RRequired "Name is required"] |}
             "Name is required"); reflexivity.
  - apply (text_field_required_blur
             {| externalValue := Some ""%string; validators := [RRequired "Name is required"] |}
             "Name is required"); reflexivity.
Defined.

End ValidationProofs.

(** ** DateField *)

Module DateProofs.
Import JsString DateField.
Local Open Scope string_scope.
Local Open Scope Z_scope.

(** C3 (as stated, refuted): with [required] off, the blank text is not
    checked at all: [validateDate ""] reports no error, while the first
    failing check of the list, "parseable in the configured format",
    would report a format error. *)
Lemma validate_date_blank_optional_counterexample :
  validateDate (example_props false) "" = ""
  /\ first_failure (date_checks (example_props false) "")
     = "Invalid date format. Use DD/MM/YYYY".
Proof. split; reflexivity. Qed.

(** C3 (amended): for a non-blank text, [validateDate] reports exactly the
    message of the first failing check among required, parseable,
    [date >= minDate] and [date <= maxDate]; a blank text reports
    "Date is required" when the field is required and no error otherwise.
    With the bounds 2025-01-01 .. 2025-12-31 in [DD/MM/YYYY],
    ["15/13/2025"] is a format error and ["01/01/2024"] a min-date error. *)
Theorem validate_date_first_failure :
  (forall p s, trim s <> "" -> validateDate p s = first_failure (date_checks p s))
  /\ (forall p s, trim s = "" ->
        validateDate p s = if required p then "Date is required" else "")
  /\ validateDate (example_props false) "15/13/2025"
     = "Invalid date format. Use DD/MM/YYYY"
  /\ validateDate (example_props false) "01/01/2024"
     = "Date must be after 01/01/2025".
Proof.
  split; [|split; [|split; reflexivity]].
  - intros p s Hs. apply String.eqb_neq in Hs.
    unfold validateDate, first_failure, date_checks. rewrite Hs, andb_false_r.
    simpl. destruct (parseDate (format p) s) as [d|]; simpl; [|reflexivity].
    destruct (minDate p) as [mn|]; destruct (maxDate p) as [mx|]; simpl;
      repeat match goal with |- context [?a <? ?b] => destruct (a <? b) end;
      reflexivity.
  - intros p s Hs. apply String.eqb_eq in Hs. unfold validateDate.
    rewrite Hs. destruct (required p); reflexivity.
Qed.

(** C9 (code bug): whatever the field state and the typed text, the
    change handler does not complete: [validationError] is declared with
    [const] inside the [if (isTouched)] block, and the later
    [if (!validationError)] is outside that block, where the name is not
    bound, so the handler throws a [ReferenceError] and never calls
    [onChange]. *)
Theorem handle_text_change_throws (p : DateProps) (s : DateState) (text : string) :
  handleTextChange p s text = Threw "ReferenceError: validationError is not defined".
Proof. unfold handleTextChange. destruct (isTouched s); reflexivity. Qed.

Lemma all_from_spec (n : nat) (i : Z) (f : Z -> bool) :
  all_from n i f = true -> forall k, i <= k < i + Z.of_nat n -> f k = true.
Proof.
  revert i. induction n as [|n IH]; intros i H k Hk; simpl in *; [lia|].
  destruct (f i) eqn:Hi; [|discriminate].
  destruct (Z.eq_dec k i) as [->|Hne]; [exact Hi|].
  apply (IH (i + 1)); [exact H | lia].
Qed.

Lemma civil_ok_era : all_from (Z.to_nat 146097) 0 civil_ok = true.
Proof. vm_compute. reflexivity. Qed.

Lemma pad_ok_days : all_from 31 1 pad_ok = true.
Proof. vm_compute. reflexivity. Qed.

(** [civil_from_days] yields a month in [1..12], a day in [1..31], and
    [days_from_civil] brings it back. *)
Lemma civil_from_days_inv (z : Z) :
  let '(y, m, d) := civil_from_days z in
  1 <= m <= 12 /\ 1 <= d <= 31 /\ days_from_civil y m d = z.
Proof.
  unfold civil_from_days.
  set (z' := z + 719468). set (era := z' / 146097).
  set (doe := z' - era * 146097).
  assert (Hdoe : 0 <= doe < 146097).
  { unfold doe, era. pose proof (Z.mod_pos_bound z' 146097 eq_refl) as Hb.
    rewrite Z.mod_eq in Hb by lia. lia. }
  pose proof (all_from_spec _ _ _ civil_ok_era doe) as Hok.
  rewrite Z2Nat.id in Hok by lia. specialize (Hok ltac:(lia)).
  unfold civil_ok in Hok.
  set (yoe := (doe - doe / 1460 + doe / 36524 - doe / 146096) / 365) in *.
  set (doy := doe - (365 * yoe + yoe / 4 - yoe / 100)) in *.
  set (mp := (5 * doy + 2) / 153) in *.
  set (dd := doy - (153 * mp + 2) / 5 + 1) in *.
  repeat rewrite andb_true_iff in Hok. rewrite !Z.leb_le in Hok.
  destruct Hok as [[[[[H1 H2] H3] H4] H5] H6].
  assert (Hera : (yoe + era * 400) / 400 = era).
  { rewrite Z.div_add by lia. rewrite Z.div_small by lia. lia. }
  destruct (mp <? 10) eqn:Hmp.
  - apply Z.ltb_lt in Hmp.
    replace (mp + 3 <=? 2) with false by (symmetry; apply Z.leb_gt; lia).
    split; [lia|]. split; [lia|].
    unfold days_from_civil.
    replace (mp + 3 <=? 2) with false by (symmetry; apply Z.leb_gt; lia).
    rewrite Hera. replace ((mp + 3 + 9) mod 12) with mp.
    2:{ replace (mp + 3 + 9) with (mp + 1 * 12) by lia.
        rewrite Z.mod_add by lia. rewrite Z.mod_small by lia. reflexivity. }
    replace (yoe + era * 400 - era * 400) with yoe by lia.
    unfold dd, doy, doe, z'. lia.
  - apply Z.ltb_ge in Hmp.
    replace (mp - 9 <=? 2) with true by (symmetry; apply Z.leb_le; lia).
    split; [lia|]. split; [lia|].
    unfold days_from_civil.
    replace (mp - 9 <=? 2) with true by (symmetry; apply Z.leb_le; lia).
    replace (yoe + era * 400 + 1 - 1) with (yoe + era * 400) by lia.
    rewrite Hera. replace ((mp - 9 + 9) mod 12) with mp.
    2:{ replace (mp - 9 + 9) with mp by lia. rewrite Z.mod_small by lia.
        reflexivity. }
    replace (yoe + era * 400 - era * 400) with yoe by lia.
    unfold dd, doy, doe, z'. lia.
Qed.

Lemma list_ascii_app (a b : string) :
  list_ascii_of_string (a ++ b) = (list_ascii_of_string a ++ list_ascii_of_string b)%list.
Proof. induction a as [|c a IH]; simpl; [reflexivity | now rewrite IH]. Qed.

Lemma take_digits_nilempty (u : Decimal.uint) :
  take_digits (list_ascii_of_string (DecimalString.NilEmpty.string_of_uint u)) = u.
Proof. induction u; simpl; try rewrite IHu; reflexivity. Qed.

Lemma Z_id_match (z : Z) :
  match z with Z0 => Z0 | Z.pos y => Z.pos y | Z.neg y => Z.neg y end = z.
Proof. now destruct z. Qed.

Lemma parseInt_nilzero_head (u : Decimal.uint) :
  parseInt (DecimalString.NilZero.string_of_uint u) = Some (Z.of_uint u).
Proof.
  destruct u; try reflexivity;
    unfold parseInt; simpl; rewrite take_digits_nilempty; try rewrite Z_id_match;
    reflexivity.
Qed.

Lemma parseInt_js_String_int (n : Z) : parseInt (js_String_int n) = Some n.
Proof.
  unfold js_String_int. destruct n as [|q|q]; [reflexivity| |].
  - simpl. rewrite parseInt_nilzero_head.
    rewrite <- (DecimalZ.of_to (Z.pos q)). reflexivity.
  - simpl. rewrite <- (DecimalZ.of_to (Z.neg q)). simpl.
    unfold parseInt. simpl.
    destruct (Pos.to_uint q) eqn:E; simpl; try rewrite take_digits_nilempty;
      try reflexivity.
Qed.

Lemma no_sep_nilempty (u : Decimal.uint) :
  forallb no_sep (list_ascii_of_string (DecimalString.NilEmpty.string_of_uint u)) = true.
Proof. induction u; simpl; auto. Qed.

Lemma no_sep_js_String_int (n : Z) :
  0 <= n -> forallb no_sep (list_ascii_of_string (js_String_int n)) = true.
Proof.
  intros Hn. unfold js_String_int. destruct n as [|q|q]; [reflexivity| | lia].
  simpl. destruct (Pos.to_uint q); try reflexivity; apply no_sep_nilempty.
Qed.

Lemma split_list_app (sep : ascii) (a b : list ascii) :
  forallb (fun c => negb (Ascii.eqb c sep)) a = true ->
  split_list sep (a ++ sep :: b)%list = a :: split_list sep b.
Proof.
  induction a as [|c a IH]; simpl; intros H.
  - now rewrite Ascii.eqb_refl.
  - apply andb_prop in H as [Hc Ha]. apply negb_true_iff in Hc.
    rewrite Hc, IH by exact Ha. reflexivity.
Qed.

Lemma split_list_single (sep : ascii) (a : list ascii) :
  forallb (fun c => negb (Ascii.eqb c sep)) a = true ->
  split_list sep a = [a].
Proof.
  induction a as [|c a IH]; simpl; intros H; [reflexivity|].
  apply andb_prop in H as [Hc Ha]. apply negb_true_iff in Hc.
  rewrite Hc, IH by exact Ha. reflexivity.
Qed.

Lemma no_sep_slash (l : list ascii) :
  forallb no_sep l = true -> forallb (fun c => negb (Ascii.eqb c "/"%char)) l = true.
Proof.
  induction l as [|c l IH]; simpl; intros H; [reflexivity|].
  apply andb_prop in H as [Hc Hl]. unfold no_sep in Hc.
  apply andb_prop in Hc as [H1 H2]. rewrite H1, IH by exact Hl. reflexivity.
Qed.

Lemma no_sep_dash (l : list ascii) :
  forallb no_sep l = true -> forallb (fun c => negb (Ascii.eqb c "-"%char)) l = true.
Proof.
  induction l as [|c l IH]; simpl; intros H; [reflexivity|].
  apply andb_prop in H as [Hc Hl]. unfold no_sep in Hc.
  apply andb_prop in Hc as [H1 H2]. rewrite H2, IH by exact Hl. reflexivity.
Qed.

Lemma drop_spaces_keeps (c : ascii) (l : list ascii) :
  In c l -> is_space c = false -> In c (drop_spaces l).
Proof.
  induction l as [|c' l IH]; simpl; intros Hin Hs; [contradiction|].
  destruct (is_space c') eqn:E.
  - destruct Hin as [->|Hin]; [congruence | auto].
  - exact Hin.
Qed.

Lemma trim_nonblank (c : ascii) (s : string) :
  In c (list_ascii_of_string s) -> is_space c = false -> trim s <> "".
Proof.
  intros Hin Hs. unfold trim.
  assert (H : In c (rev (drop_spaces (rev (drop_spaces (list_ascii_of_string s)))))).
  { rewrite <- in_rev. apply drop_spaces_keeps; [|exact Hs].
    rewrite <- in_rev. apply drop_spaces_keeps; assumption. }
  destruct (rev (drop_spaces (rev (drop_spaces (list_ascii_of_string s))))).
  - contradiction.
  - discriminate.
Qed.

Lemma make_day_in_year (y m d : Z) :
  1 <= m <= 12 -> make_day y (m - 1) d = days_from_civil y m d.
Proof.
  intros Hm. unfold make_day.
  rewrite (Z.div_small (m - 1) 12) by lia.
  rewrite (Z.mod_small (m - 1) 12) by lia.
  replace (y + 0) with y by lia. replace (m - 1 + 1) with m by lia.
  unfold days_from_civil. lia.
Qed.

Lemma getters_civil (t y m d : Z) :
  civil_from_days t = (y, m, d) ->
  getFullYear t = y /\ getMonth t = m - 1 /\ getDate t = d.
Proof. unfold getFullYear, getMonth, getDate. intros ->. auto. Qed.

Lemma pad_ok_spec (n : Z) :
  1 <= n <= 31 ->
  parseInt (padStart2 (js_String_int n)) = Some n
  /\ forallb no_sep (list_ascii_of_string (padStart2 (js_String_int n))) = true.
Proof.
  intros Hn. pose proof (all_from_spec _ _ _ pad_ok_days n ltac:(simpl; lia)) as H.
  unfold pad_ok in H. apply andb_prop in H as [H1 H2]. split; [|exact H2].
  destruct (parseInt (padStart2 (js_String_int n))); [|discriminate].
  apply Z.eqb_eq in H1. now subst.
Qed.

(** C4 (as stated, refuted): 1 January of the year 50 is a valid date,
    written ["01/01/50"], but [new Date(50, 0, 1)] is 1950-01-01, so the
    year check of [parseDate] rejects it. *)
Lemma parse_format_year_50_counterexample :
  valid_date (days_from_civil 50 1 1)
  /\ parseDate DD_MM_YYYY (formatDate DD_MM_YYYY (days_from_civil 50 1 1)) = None.
Proof. split; [unfold valid_date; simpl; lia | reflexivity]. Qed.

(** C4 (amended): for every valid date of year 100 or later and each of
    the three formats, parsing the formatted text gives the date back. *)
Theorem parse_format_roundtrip (fmt : DateFormat) (t : Z) :
  valid_date t -> 100 <= getFullYear t ->
  parseDate fmt (formatDate fmt t) = Some t.
Proof.
  intros Hv Hy. pose proof (civil_from_days_inv t) as Hinv.
  destruct (civil_from_days t) as [[y m] d] eqn:Hc.
  destruct Hinv as (Hm & Hd & Hback).
  destruct (getters_civil _ _ _ _ Hc) as (Gy & Gm & Gd).
  rewrite Gy in Hy.
  destruct (pad_ok_spec d Hd) as [PD ND].
  destruct (pad_ok_spec m ltac:(lia)) as [PM NM].
  pose proof (parseInt_js_String_int y) as PY.
  pose proof (no_sep_js_String_int y ltac:(lia)) as NY.
  assert (Hnew : new_Date (Some y) (Some (m - 1)) (Some d) = Some t).
  { unfold new_Date.
    replace ((0 <=? y) && (y <=? 99)) with false
      by (symmetry; apply andb_false_iff; right; apply Z.leb_gt; lia).
    rewrite make_day_in_year, Hback by lia.
    replace (Z.abs t <=? 100000000) with true
      by (symmetry; apply Z.leb_le; exact Hv). reflexivity. }
  assert (Hchk : opt_eqb (Some d) (getDate t) && opt_eqb (Some (m - 1)) (getMonth t)
                 && opt_eqb (Some y) (getFullYear t) = true).
  { rewrite Gy, Gm, Gd. simpl. rewrite !Z.eqb_refl. reflexivity. }
  unfold formatDate. rewrite Gy, Gm, Gd. replace (m - 1 + 1) with m by lia.
  set (D := padStart2 (js_String_int d)) in *.
  set (M := padStart2 (js_String_int m)) in *.
  set (Y := js_String_int y) in *.
  destruct fmt; unfold parseDate, split, separator;
    rewrite !list_ascii_app; simpl list_ascii_of_string; cbn [app].
  - rewrite (proj2 (String.eqb_neq _ _)).
    2:{ apply (trim_nonblank "/"%char).
        rewrite !list_ascii_app. simpl. apply in_or_app. right. now left.
        reflexivity. }
    rewrite split_list_app by (apply no_sep_slash; exact ND).
    rewrite split_list_app by (apply no_sep_slash; exact NM).
    rewrite split_list_single by (apply no_sep_slash; exact NY).
    simpl map. rewrite !string_of_list_ascii_of_string.
    simpl components. rewrite PD, PM, PY. simpl option_map.
    rewrite Hnew, Hchk. reflexivity.
  - rewrite (proj2 (String.eqb_neq _ _)).
    2:{ apply (trim_nonblank "/"%char).
        rewrite !list_ascii_app. simpl. apply in_or_app. right. now left.
        reflexivity. }
    rewrite split_list_app by (apply no_sep_slash; exact NM).
    rewrite split_list_app by (apply no_sep_slash; exact ND).
    rewrite split_list_single by (apply no_sep_slash; exact NY).
    simpl map. rewrite !string_of_list_ascii_of_string.
    simpl components. rewrite PD, PM, PY. simpl option_map.
    rewrite Hnew, Hchk. reflexivity.
  - rewrite (proj2 (String.eqb_neq _ _)).
    2:{ apply (trim_nonblank "-"%char).
        rewrite !list_ascii_app. simpl. apply in_or_app. right. now left.
        reflexivity. }
    rewrite split_list_app by (apply no_sep_dash; exact NY).
    rewrite split_list_app by (apply no_sep_dash; exact NM).
    rewrite split_list_single by (apply no_sep_dash; exact ND).
    simpl map. rewrite !string_of_list_ascii_of_string.
    simpl components. rewrite PD, PM, PY. simpl option_map.
    rewrite Hnew, Hchk. reflexivity.
Qed.

(** C4 at 7 March 2025 in the [YYYY-MM-DD] format. *)
Lemma parse_format_roundtrip_witness :
  parseDate YYYY_MM_DD (formatDate YYYY_MM_DD (days_from_civil 2025 3 7))
  = Some (days_from_civil 2025 3 7).
Proof.
  apply parse_format_roundtrip; unfold valid_date, getFullYear; vm_compute;
    [discriminate | discriminate].
Defined.

Lemma components_length (fmt : DateFormat) (parts : list string) :
  List.length parts <> 3%nat -> components fmt parts = None.
Proof.
  intros H. destruct parts as [|a [|b [|c [|e r]]]]; destruct fmt;
    simpl in *; try reflexivity; lia.
Qed.

(** C5 (as stated, refuted): the day field ["1x"] is not numeric, yet
    [parseInt] reads its leading digit and [parseDate] accepts the text as
    1 February 2024. *)
Lemma parse_date_non_numeric_counterexample :
  parseInt "1x" = Some 1
  /\ parseDate DD_MM_YYYY "1x/02/2024" <> None.
Proof. split; [reflexivity | vm_compute; discriminate]. Qed.

(** C5 (amended): a successful parse returns a date whose day, month and
    year equal the [parseInt] values read from the parts; the parse fails
    when the separator does not split the text into three parts, when a
    part has no leading digits ([parseInt] is [NaN]), and on roll-over, as
    for ["31/02/2024"]; a part is read by [parseInt], so characters after
    its leading digits are ignored, as in ["1x/02/2024"]. *)
Theorem parse_date_checks_components :
  (forall fmt s t, parseDate fmt s = Some t ->
     exists dd mm yy,
       components fmt (split (separator fmt) s) = Some (Some dd, Some mm, Some yy)
       /\ getDate t = dd /\ getMonth t = mm /\ getFullYear t = yy)
  /\ (forall fmt s, List.length (split (separator fmt) s) <> 3%nat ->
        parseDate fmt s = None)
  /\ (forall fmt s dd mm yy,
        components fmt (split (separator fmt) s) = Some (dd, mm, yy) ->
        dd = None \/ mm = None \/ yy = None -> parseDate fmt s = None)
  /\ parseDate DD_MM_YYYY "31/02/2024" = None
  /\ parseDate DD_MM_YYYY "1x/02/2024" = Some (days_from_civil 2024 2 1).
Proof.
  split; [|split; [|split; [|split; vm_compute; reflexivity]]].
  - intros fmt s t H. unfold parseDate in H.
    destruct (String.eqb (trim s) ""); [discriminate|].
    destruct (components fmt (split (separator fmt) s)) as [[[dd mm] yy]|];
      [|discriminate].
    destruct (new_Date yy mm dd) as [t'|] eqn:En; [|discriminate].
    destruct (opt_eqb dd (getDate t') && opt_eqb mm (getMonth t')
              && opt_eqb yy (getFullYear t')) eqn:Ec; [|discriminate].
    inversion H; subst t'.
    apply andb_prop in Ec as [Ec E3]. apply andb_prop in Ec as [E1 E2].
    destruct dd as [dd|]; [|discriminate]. destruct mm as [mm|]; [|discriminate].
    destruct yy as [yy|]; [|discriminate]. simpl in E1, E2, E3.
    apply Z.eqb_eq in E1, E2, E3.
    exists dd, mm, yy. repeat split; congruence.
  - intros fmt s H. unfold parseDate. rewrite components_length by exact H.
    destruct (String.eqb (trim s) ""); reflexivity.
  - intros fmt s dd mm yy Hc Hn. unfold parseDate. rewrite Hc.
    destruct (String.eqb (trim s) ""); [reflexivity|].
    destruct Hn as [ -> | [ -> | -> ] ];
      repeat match goal with o : option Z |- _ => destruct o end; reflexivity.
Qed.

End DateProofs.

(** ** FileSelectionSet *)

Module FileProofs.
Import FileSelection.
Local Open Scope string_scope.
Local Open Scope Z_scope.

(** C1 (as stated, refuted): with [maxFiles = 3], four individually valid
    files picked into an empty set (the picker is opened in multiple mode)
    are not rejected: the first three are committed and no error is set. *)
Lemma pick_four_of_three_counterexample :
  picker_multiple default_props (mount []) = true
  /\ handlePickFiles (fun _ => "") default_props (mount [])
       (Picked (map sample_asset ["a"; "b"; "c"; "d"]))
     = {| new_state := {| files := map (fun n => {| uri := "file:///" ++ n; name := n;
                                                     size := 1000;
                                                     mimeType := Some "application/pdf" |})
                                      ["a"; "b"; "c"];
                          error := ""; isTouched := true |};
          emitted := Some (map (fun n => {| uri := "file:///" ++ n; name := n;
                                            size := 1000;
                                            mimeType := Some "application/pdf" |})
                               ["a"; "b"; "c"]);
          alerts := [] |}.
Proof. split; reflexivity. Qed.

(** C1 (amended): when the set already holds [maxFiles] files or more, the
    add is refused before the picker opens, with the list unchanged and the
    error "Maximum n file(s) allowed"; otherwise the survivors of the
    per-file filter are appended and the combined list is cut to its first
    [maxFiles] entries before the aggregate checks, so the count check
    never fails on it, and the cut list is either committed (no error) or
    wholly rejected with the list unchanged.  With [maxFiles = 3], four
    valid files added to an empty set commit the first three. *)
Theorem pick_files_truncates_then_validates :
  (forall fmt p s r,
     maxFiles p <= Z.of_nat (List.length (files s)) ->
     files (new_state (handlePickFiles fmt p s r)) = files s
     /\ error (new_state (handlePickFiles fmt p s r)) = max_files_message (maxFiles p)
     /\ emitted (handlePickFiles fmt p s r) = None)
  /\ (forall fmt p s assets,
        Z.of_nat (List.length (files s)) < maxFiles p ->
        let kept := fst (filter_assets p assets) in
        let l := firstn (Z.to_nat (maxFiles p)) (files s ++ kept) in
        (maxFiles p <? Z.of_nat (List.length l)) = false
        /\ (kept = [] -> files (new_state (handlePickFiles fmt p s (Picked assets))) = files s)
        /\ (kept <> [] -> validateFiles fmt p l = "" ->
              files (new_state (handlePickFiles fmt p s (Picked assets))) = l
              /\ error (new_state (handlePickFiles fmt p s (Picked assets))) = "")
        /\ (kept <> [] -> validateFiles fmt p l <> "" ->
              files (new_state (handlePickFiles fmt p s (Picked assets))) = files s
              /\ error (new_state (handlePickFiles fmt p s (Picked assets)))
                 = validateFiles fmt p l))
  /\ List.length (files (new_state (handlePickFiles (fun _ => "") default_props (mount [])
        (Picked (map sample_asset ["a"; "b"; "c"; "d"]))))) = 3%nat.
Proof.
  split; [|split; [|reflexivity]].
  - intros fmt p s r H. unfold handlePickFiles.
    replace (maxFiles p <=? Z.of_nat (List.length (files s))) with true
      by (symmetry; apply Z.leb_le; exact H).
    repeat split.
  - intros fmt p s assets H kept l.
    assert (Hl : (maxFiles p <? Z.of_nat (List.length l)) = false).
    { apply Z.ltb_ge. unfold l. rewrite length_firstn.
      rewrite Nat2Z.inj_min. rewrite Z2Nat.id by lia. lia. }
    unfold handlePickFiles.
    replace (maxFiles p <=? Z.of_nat (List.length (files s))) with false
      by (symmetry; apply Z.leb_gt; exact H).
    unfold kept, l in *.
    destruct (filter_assets p assets) as [nf al]. simpl in *.
    split; [exact Hl|]. split; [|split].
    + intros ->. reflexivity.
    + intros Hne Hv. destruct nf as [|f nf]; [congruence|].
      unfold kept in *. rewrite Hv. simpl. split; reflexivity.
    + intros Hne Hv. destruct nf as [|f nf]; [congruence|].
      unfold kept in *. destruct (String.eqb_spec (validateFiles fmt p (firstn (Z.to_nat (maxFiles p))
                                   (files s ++ f :: nf))) "") as [E|E];
        [contradiction|]. simpl. split; reflexivity.
Qed.

(** C10: mounting adopts the [value] prop as it is: no count or size check
    runs, and no error is reported, even for a list that violates
    [maxFiles]; the first add on such a set is refused by the count
    guard. *)
Theorem mount_adopts_value_unchecked :
  (forall value, currentFiles (mount value) = value /\ currentError (mount value) = "")
  /\ (let v := [{| uri := "u1"; name := "a"; size := 1; mimeType := None |};
                {| uri := "u2"; name := "b"; size := 1; mimeType := None |};
                {| uri := "u3"; name := "c"; size := 1; mimeType := None |};
                {| uri := "u4"; name := "d"; size := 1; mimeType := None |}] in
      maxFiles default_props < Z.of_nat (List.length (currentFiles (mount v)))
      /\ currentError (mount v) = ""
      /\ currentError (new_state (handlePickFiles (fun _ => "") default_props (mount v)
                                    Canceled)) = "Maximum 3 file(s) allowed").
Proof.
  split.
  - intros value. split; reflexivity.
  - simpl. split; [lia | split; reflexivity].
Qed.

End FileProofs.

(** ** AnimatedCounter *)

Module CounterProofs.
Import Counter.
Local Open Scope Q_scope.

(** C6: stopping a running counter with an animation in flight pauses it,
    cancels that animation (its callback queues nothing) and keeps the
    progress; starting again resumes with a new animation from that
    progress to 1, over [duration * (1 - progress)] ms, with the configured
    easing. *)
Theorem stop_then_start_resumes (p : CounterProps) (s : Sys) (a : Anim) :
  state s = running -> anim s = Some a ->
  let s1 := handleStop s in
  let s2 := handleStart p s1 in
  state s1 = paused /\ progress s1 = progress s /\ anim s1 = None
  /\ pending s1 = pending s /\ In (a_id a) (canceled s1)
  /\ state s2 = running /\ progress s2 = progress s
  /\ anim s2 = Some {| a_id := next_id s; a_from := progress s;
                       a_duration := validDuration p * 1000 * (1 - progress s);
                       a_easing := easing p; a_elapsed := 0 |}.
Proof.
  intros Hs Ha. unfold handleStop. rewrite Hs.
  unfold cancel, set_state. simpl. rewrite Ha. simpl.
  repeat split.
  apply in_or_app. right. now left.
Qed.

(** C6 at the spec's example: 10 s, linear easing, stopped after 5 s at
    progress 1/2: the resumed animation lasts 5000 ms. *)
Lemma stop_then_start_resumes_witness :
  let p := {| targetNumber := 100; durationSec := 10; onComplete := true;
              easing := linear |} in
  let s := run linear_only p init_sys [EStart; ETick 5000] in
  progress s == 1 # 2
  /\ anim (handleStart p (handleStop s))
     = Some {| a_id := next_id s; a_from := progress s;
               a_duration := validDuration p * 1000 * (1 - progress s);
               a_easing := linear; a_elapsed := 0 |}.
Proof.
  intros p s. split.
  - vm_compute. reflexivity.
  - refine (proj2 (proj2 (proj2 (proj2 (proj2 (proj2 (proj2
             (stop_then_start_resumes p s
                {| a_id := 0; a_from := 0; a_duration := 10000;
                   a_easing := linear; a_elapsed := 5000 |} _ _)))))))).
    + vm_compute. reflexivity.
    + vm_compute. reflexivity.
Defined.

(** C7 (as stated, refuted): the first run reaches 1 on the UI thread and
    queues its completion; [restart] is pressed before the JS thread has
    received it.  The queued calls are not invalidated: the stale
    completion of run 0 fires after the restart and sets the state to
    [completed] while run 1 is animating. *)
Lemma stale_completion_after_restart_counterexample :
  let s1 := run linear_only one_second_props init_sys [EStart; ETick 1000; ERestart] in
  let s2 := run linear_only one_second_props s1 [EDeliver; EDeliver] in
  fired s1 = [] /\ state s1 = running
  /\ fired s2 = [0%nat] /\ state s2 = completed
  /\ option_map a_id (anim s2) = Some 1%nat.
Proof. vm_compute. repeat split. Qed.

Section Invariant.
Variable curve : EasingName -> Q -> Q.
Variable p : CounterProps.

(** The run records are consistent: every run is finished or canceled at
    most once, run numbers are fresh, and the completions fired or queued
    are exactly the finished runs (when [onComplete] is given), once each. *)
Definition inv (s : Sys) : Prop :=
  NoDup (finished s ++ canceled s)
  /\ (forall x, In x (finished s ++ canceled s) -> (x < next_id s)%nat)
  /\ (forall a, anim s = Some a ->
        (a_id a < next_id s)%nat /\ ~ In (a_id a) (finished s ++ canceled s))
  /\ NoDup (fired s ++ pending_ids (pending s))
  /\ (forall x, In x (fired s ++ pending_ids (pending s)) <->
                onComplete p = true /\ In x (finished s)).

Lemma NoDup_snoc (l : list nat) (x : nat) :
  NoDup l -> ~ In x l -> NoDup (l ++ [x]).
Proof.
  intros H Hx. apply NoDup_app; [exact H | constructor; [intros []|constructor] |].
  intros y Hy [<-|[]]. contradiction.
Qed.

Lemma NoDup_app_disjoint (l1 l2 : list nat) (x : nat) :
  NoDup (l1 ++ l2) -> In x l1 -> In x l2 -> False.
Proof.
  induction l1 as [|y l IH]; simpl; intros Hn H1 H2; [exact H1|].
  inversion Hn as [|? ? Hy Hn']; subst. destruct H1 as [<-|H1].
  - apply Hy. auto with datatypes.
  - exact (IH Hn' H1 H2).
Qed.

Ltac split_inv := split; [|split; [|split; [|split]]].

Lemma inv_init : inv init_sys.
Proof.
  unfold inv; simpl. split_inv.
  - constructor.
  - intros x [].
  - intros a Ha; discriminate.
  - constructor.
  - intros x; simpl; tauto.
Qed.

Lemma inv_set_state st s : inv s -> inv (set_state st s).
Proof. unfold inv, set_state; simpl. tauto. Qed.

Lemma inv_cancel s : inv s -> inv (cancel s).
Proof.
  unfold cancel. destruct (anim s) as [a|] eqn:Ea; [|tauto].
  intros (H1 & H2 & H3 & H4 & H5). destruct (H3 a Ea) as [Hlt Hn].
  unfold inv; simpl. split_inv.
  - rewrite app_assoc. now apply NoDup_snoc.
  - intros x Hx. rewrite app_assoc in Hx. apply in_app_or in Hx as [Hx|[<-|[]]].
    + now apply H2.
    + exact Hlt.
  - intros b Hb; discriminate.
  - exact H4.
  - exact H5.
Qed.

Lemma inv_assign v s : inv s -> inv (assign v s).
Proof.
  intros H. pose proof (inv_cancel s H) as (H1 & H2 & H3 & H4 & H5).
  unfold assign, inv; simpl. split_inv; auto.
  intros b Hb; discriminate.
Qed.

Lemma inv_animate d e s : inv s -> inv (animate d e s).
Proof.
  intros H. pose proof (inv_cancel s H) as (H1 & H2 & H3 & H4 & H5).
  unfold animate, inv; simpl. split_inv; auto.
  - intros x Hx. specialize (H2 x Hx). lia.
  - intros b Hb. inversion Hb; subst. simpl. split; [lia|].
    intros Hin. specialize (H2 _ Hin). lia.
Qed.

Lemma inv_deliver s : inv s -> inv (deliver s).
Proof.
  unfold deliver. destruct (pending s) as [|[|id] r] eqn:Ep; [tauto| |].
  - unfold inv; simpl. rewrite Ep. simpl. tauto.
  - unfold inv; simpl. rewrite Ep. simpl. rewrite <- app_assoc. simpl. tauto.
Qed.

Lemma pending_ids_app (l1 l2 : list JsMsg) :
  pending_ids (l1 ++ l2) = pending_ids l1 ++ pending_ids l2.
Proof. unfold pending_ids. apply flat_map_app. Qed.

Lemma inv_tick dt s : inv s -> inv (tick curve p dt s).
Proof.
  unfold tick. destruct (anim s) as [a|] eqn:Ea; [|tauto].
  intros (H1 & H2 & H3 & H4 & H5). destruct (H3 a Ea) as [Hlt Hn].
  destruct (Qle_bool (a_duration a) (a_elapsed a + dt)).
  - unfold inv; simpl. split_inv.
    + apply (Permutation_NoDup (l := a_id a :: finished s ++ canceled s)).
      * rewrite <- app_assoc. simpl. apply Permutation_middle.
      * constructor; assumption.
    + intros x Hx. rewrite <- app_assoc in Hx. simpl in Hx.
      apply in_app_or in Hx as [Hx|[<-|Hx]]; auto; apply H2; auto with datatypes.
    + intros b Hb; discriminate.
    + rewrite pending_ids_app. simpl.
      destruct (onComplete p) eqn:Eo; simpl; rewrite ?app_nil_r; [|exact H4].
      rewrite app_assoc. apply NoDup_snoc; [exact H4|].
      intros Hin. apply H5 in Hin as [_ Hin]. apply Hn. auto with datatypes.
    + intros x. rewrite pending_ids_app. simpl.
      destruct (onComplete p) eqn:Eo; simpl; rewrite ?app_nil_r.
      * rewrite app_assoc. split.
        -- intros Hx. split; [reflexivity|].
           apply in_app_or in Hx as [Hx|[<-|[]]]; auto with datatypes.
           apply H5 in Hx as [_ Hx]. auto with datatypes.
        -- intros [_ Hx]. apply in_app_or in Hx as [Hx|[<-|[]]].
           ++ apply in_or_app. left. apply H5. auto.
           ++ auto with datatypes.
      * split.
        -- intros Hx. apply H5 in Hx as [Hx _]. discriminate.
        -- intros [Hx _]. discriminate.
  - unfold inv; simpl. split_inv; auto.
    intros b Hb. inversion Hb; subst. simpl. auto.
Qed.

Lemma inv_step s ev : inv s -> inv (step curve p s ev).
Proof.
  intros H. destruct ev; simpl.
  - unfold handleStart. destruct (state s).
    + apply inv_animate, inv_assign, inv_set_state, H.
    + exact H.
    + apply inv_animate, inv_set_state, H.
    + apply inv_animate, inv_assign, inv_set_state, H.
  - unfold handleStop. destruct (state s); try exact H.
    apply inv_cancel, inv_set_state, H.
  - apply inv_assign, inv_cancel, inv_set_state, H.
  - apply inv_animate, inv_assign, inv_set_state, inv_cancel, H.
  - apply inv_deliver, H.
  - apply inv_tick, H.
Qed.

Lemma inv_run evs s : inv s -> inv (run curve p s evs).
Proof.
  unfold run. revert s. induction evs as [|ev evs IH]; simpl; intros s H.
  - exact H.
  - apply IH, inv_step, H.
Qed.

End Invariant.

(** C7 (amended): over every sequence of events from the initial state,
    [onComplete] fires only for runs whose animation reached 1, at most
    once for each, never for a run canceled (by stop, reset, restart or a
    new start) before reaching 1, and every run that reached 1 has fired
    or has its completion queued.  A completion already queued when
    [restart] is pressed is not invalidated (see the counterexample). *)
Theorem completion_once_per_finished_run
    (curve : EasingName -> Q -> Q) (p : CounterProps) (evs : list Event) :
  let s := run curve p init_sys evs in
  NoDup (fired s)
  /\ (forall id, In id (fired s) -> In id (finished s))
  /\ (forall id, In id (canceled s) -> ~ In id (fired s))
  /\ (forall id, onComplete p = true -> In id (finished s) ->
        In id (fired s) \/ In id (pending_ids (pending s))).
Proof.
  intros s. pose proof (inv_run curve p evs init_sys (inv_init p)) as
    (H1 & H2 & H3 & H4 & H5).
  fold s in H1, H2, H3, H4, H5.
  split; [|split; [|split]].
  - now apply NoDup_app_remove_r in H4.
  - intros id Hid. apply (H5 id). auto with datatypes.
  - intros id Hc Hf. assert (Hfin : In id (finished s)).
    { apply (H5 id). auto with datatypes. }
    exact (NoDup_app_disjoint _ _ id H1 Hfin Hc).
  - intros id Ho Hid. apply in_app_or. apply H5. auto.
Qed.

End CounterProofs.

Module FileSessionProofs.
Import JsString FileSelection FileSession.
Local Open Scope string_scope.
Local Open Scope Z_scope.

Lemma remove_filter_seq (i k : nat) (l : list SelectedFile) :
  map snd (filter (fun '(j, _) => negb (Nat.eqb j i)) (combine (seq k (List.length l)) l))
  = if Nat.ltb i k then l else (firstn (i - k) l ++ skipn (S (i - k)) l)%list.
Proof.
  revert k. induction l as [|f l IH]; intros k.
  - simpl. destruct (Nat.ltb i k), (i - k)%nat; reflexivity.
  - simpl. destruct (Nat.eqb_spec k i) as [->|Hne]; simpl; rewrite IH.
    + rewrite Nat.ltb_irrefl.
      replace (Nat.ltb i (S i)) with true by (symmetry; apply Nat.ltb_lt; lia).
      rewrite Nat.sub_diag. reflexivity.
    + destruct (Nat.ltb_spec i k) as [H1|H1].
      * replace (Nat.ltb i (S k)) with true by (symmetry; apply Nat.ltb_lt; lia). reflexivity.
      * replace (Nat.ltb i (S k)) with false by (symmetry; apply Nat.ltb_ge; lia).
        replace (i - k)%nat with (S (i - S k)) by lia. reflexivity.
Qed.

Lemma total_size_acc (l : list SelectedFile) (acc : Z) :
  fold_left (fun s f => s + size f) l acc = acc + total_size l.
Proof.
  unfold total_size. revert acc. induction l as [|f l IH]; intros acc; simpl; [lia|].
  rewrite (IH (acc + size f)), (IH (size f)). lia.
Qed.

Lemma total_size_cons (f : SelectedFile) (l : list SelectedFile) :
  total_size (f :: l) = size f + total_size l.
Proof. unfold total_size at 1. simpl. rewrite total_size_acc. lia. Qed.

Lemma total_size_app (a b : list SelectedFile) :
  total_size (a ++ b)%list = total_size a + total_size b.
Proof.
  induction a as [|f a IH]; [reflexivity|].
  rewrite <- app_comm_cons, !total_size_cons, IH. lia.
Qed.

Lemma total_size_nonneg (l : list SelectedFile) :
  Forall (fun f => 0 <= size f) l -> 0 <= total_size l.
Proof.
  induction 1; [reflexivity|]. rewrite total_size_cons. lia.
Qed.

Lemma append_nonempty (s c : string) (a : ascii) :
  s ++ String a c <> "".
Proof. destruct s; discriminate. Qed.



Lemma length_list_ascii (s : string) :
  String.length s = List.length (list_ascii_of_string s).
Proof. induction s as [|c s IH]; simpl; congruence. Qed.

Lemma length_append (a b : string) :
  String.length (a ++ b) = (String.length a + String.length b)%nat.
Proof. induction a as [|c a IH]; simpl; congruence. Qed.

Lemma substring_app_r (a b : string) (n m : nat) :
  String.substring (String.length a + n) m (a ++ b) = String.substring n m b.
Proof. induction a as [|c a IH]; simpl; [reflexivity | exact IH]. Qed.

Lemma substring_full (b : string) : String.substring 0 (String.length b) b = b.
Proof. induction b as [|c b IH]; simpl; congruence. Qed.



Lemma last_dot_nodot (l : list ascii) (i acc : Z) :
  ~ In "."%char l -> last_dot l i acc = acc.
Proof.
  revert i acc. induction l as [|c l IH]; simpl; intros i acc H; [reflexivity|].
  destruct (Ascii.eqb_spec c "."%char) as [->|Hne]; [tauto|]. apply IH. tauto.
Qed.

Lemma last_dot_app (a b : list ascii) (i acc : Z) :
  last_dot (a ++ b) i acc = last_dot b (i + Z.of_nat (List.length a)) (last_dot a i acc).
Proof.
  revert i acc. induction a as [|c a IH]; simpl; intros i acc.
  - rewrite Z.add_0_r. reflexivity.
  - rewrite IH. f_equal. lia.
Qed.


Lemma find_none_iff {A : Type} (f : A -> bool) (l : list A) :
  find f l = None <-> Forall (fun x => f x = false) l.
Proof.
  induction l as [|x l IH]; simpl; split; intros H; auto.
  - destruct (f x) eqn:E; [discriminate|]. constructor; [exact E | apply IH, H].
  - inversion H as [|? ? Hx Hl]; subst. rewrite Hx. apply IH, Hl.
Qed.

Lemma Forall_firstn' {A : Type} (P : A -> Prop) (n : nat) (l : list A) :
  Forall P l -> Forall P (firstn n l).
Proof.
  revert n. induction l as [|x l IH]; intros n H; destruct n; simpl; auto.
  inversion H; subst. constructor; auto.
Qed.

Lemma remove_at_sub (P : SelectedFile -> Prop) (i : nat) (l : list SelectedFile) :
  Forall P l ->
  Forall P (firstn i l ++ skipn (S i) l)%list
  /\ (List.length (firstn i l ++ skipn (S i) l) <= List.length l)%nat
  /\ (Forall (fun f => 0 <= size f) l ->
      total_size (firstn i l ++ skipn (S i) l)%list <= total_size l).
Proof.
  revert i. induction l as [|f l IH]; intros i H; destruct i.
  - split; [constructor|]. split; [simpl; lia|]. intros; simpl; lia.
  - split; [constructor|]. split; [simpl; lia|]. intros; simpl; lia.
  - change (firstn 0 (f :: l) ++ skipn 1 (f :: l))%list with l.
    inversion H; subst. split; [exact H3|]. split; [simpl; lia|].
    intros Hn. inversion Hn; subst. rewrite total_size_cons. lia.
  - change (firstn (S i) (f :: l) ++ skipn (S (S i)) (f :: l))%list
      with (f :: (firstn i l ++ skipn (S i) l))%list.
    inversion H; subst. destruct (IH i H3) as [A [B C]].
    split; [constructor; auto|]. split; [cbn [List.length]; lia|].
    intros Hn. inversion Hn; subst. rewrite !total_size_cons. specialize (C H5). lia.
Qed.

(** [handleRemoveFile(index)] drops exactly the entry at [index] (nothing
    when [index] is past the end), re-runs [validateFiles] on what is left,
    and keeps the touched flag. *)
Theorem remove_file_drops_entry (fmt : Z -> string) (p : FilePickerProps)
    (s : FileSetState) (i : nat) :
  files (handleRemoveFile fmt p s i) = (firstn i (files s) ++ skipn (S i) (files s))%list
  /\ error (handleRemoveFile fmt p s i) = validateFiles fmt p (files (handleRemoveFile fmt p s i))
  /\ isTouched (handleRemoveFile fmt p s i) = isTouched s
  /\ List.length (files (handleRemoveFile fmt p s i))
     = if Nat.ltb i (List.length (files s)) then pred (List.length (files s))
       else List.length (files s).
Proof.
  unfold handleRemoveFile. cbn [files error isTouched]. rewrite remove_filter_seq.
  change (Nat.ltb i 0) with false. cbv iota.
  rewrite Nat.sub_0_r. split; [reflexivity|]. split; [reflexivity|]. split; [reflexivity|].
  rewrite length_app, length_firstn, length_skipn.
  destruct (Nat.ltb_spec i (List.length (files s))); lia.
Qed.

(** [validateFiles] reports no error exactly when the list is non-empty
    (if required), within the count limit, has no file above the per-file
    limit, and is within the total size limit. *)
Theorem validate_files_empty_iff (fmt : Z -> string) (p : FilePickerProps)
    (l : list SelectedFile) :
  validateFiles fmt p l = "" <->
  (required p = true -> l <> [])
  /\ Z.of_nat (List.length l) <= maxFiles p
  /\ Forall (fun f => size f <= maxSizePerFile p) l
  /\ total_size l <= maxTotalSize p.
Proof.
  unfold validateFiles.
  destruct (required p && Nat.eqb (List.length l) 0) eqn:E1.
  { split; [discriminate|]. intros [H _].
    apply andb_prop in E1 as [R L]. apply Nat.eqb_eq in L.
    destruct l; [|discriminate]. exfalso. apply H; auto. }
  destruct (Z.ltb_spec (maxFiles p) (Z.of_nat (List.length l))).
  { split; [unfold max_files_message; discriminate | intros [_ [H2 _]]; lia]. }
  destruct (find (fun f => maxSizePerFile p <? size f) l) as [f|] eqn:E3.
  { split; [destruct (name f); discriminate|].
    intros [_ [_ [H3 _]]]. apply find_some in E3 as [Hin Hf].
    rewrite Forall_forall in H3. specialize (H3 f Hin). apply Z.ltb_lt in Hf. lia. }
  destruct (Z.ltb_spec (maxTotalSize p) (total_size l)).
  { split; [discriminate | intros [_ [_ [_ H4]]]; lia]. }
  split; [intros _ | reflexivity].
  split; [intros R ->; rewrite R in E1; discriminate|].
  split; [lia|]. split; [|lia].
  apply find_none_iff in E3. eapply Forall_impl; [|exact E3].
  intros f Hf. apply Z.ltb_ge in Hf. lia.
Qed.

Lemma files_ok_limits (p : FilePickerProps) (l : list SelectedFile) :
  files_ok p l -> 0 <= maxFiles p /\ 0 <= maxTotalSize p.
Proof.
  intros [H1 [H2 H3]]. split; [lia|].
  assert (0 <= total_size l); [|lia].
  apply total_size_nonneg. eapply Forall_impl; [|exact H2]. simpl. intros f Hf; lia.
Qed.

Lemma files_ok_of_valid (fmt : Z -> string) (p : FilePickerProps) (l : list SelectedFile) :
  validateFiles fmt p l = "" -> Forall (fun f => 0 <= size f) l -> files_ok p l.
Proof.
  intros Hv Hn. apply validate_files_empty_iff in Hv as [_ [H1 [H2 H3]]].
  split; [exact H1|]. split; [|exact H3].
  rewrite Forall_forall in *. intros f Hf. split; auto.
Qed.

Lemma filter_assets_nonneg (p : FilePickerProps) (assets : list Asset) :
  asset_sizes_ok (Picked assets) ->
  Forall (fun f => 0 <= size f) (fst (filter_assets p assets)).
Proof.
  simpl. induction assets as [|a r IH]; simpl; intros H; [constructor|].
  inversion H as [|? ? Ha Hr]; subst. specialize (IH Hr).
  destruct (filter_assets p r) as [kept al]. simpl in IH.
  destruct (negb (isFileTypeAllowed (allowedTypes p) (a_mimeType a) (a_name a))); [exact IH|].
  destruct (a_size a) as [sz|].
  - destruct (negb (sz =? 0) && (maxSizePerFile p <? sz))%bool; [exact IH|].
    constructor; [simpl; exact Ha | exact IH].
  - constructor; [simpl; lia | exact IH].
Qed.

Lemma file_step_ok (fmt : Z -> string) (p : FilePickerProps) (s : FileSetState)
    (op : FileOp) :
  files_ok p (files s) -> op_ok op -> files_ok p (files (file_step fmt p s op)).
Proof.
  intros Hs Hop. pose proof (files_ok_limits _ _ Hs) as [Lf Lt].
  destruct op as [r|i|]; simpl.
  - unfold handlePickFiles.
    destruct (maxFiles p <=? Z.of_nat (List.length (files s))); [exact Hs|].
    destruct r as [|assets]; [exact Hs|].
    pose proof (filter_assets_nonneg p assets Hop) as Hn.
    destruct (filter_assets p assets) as [kept al]. simpl in Hn.
    destruct kept as [|k ks]; [exact Hs|].
    destruct (String.eqb_spec
                (validateFiles fmt p (firstn (Z.to_nat (maxFiles p)) (files s ++ k :: ks))) "")
      as [Hv|Hv]; simpl; [|exact Hs].
    apply (files_ok_of_valid fmt); [exact Hv|].
    apply Forall_firstn'. apply Forall_app. split; [|exact Hn].
    destruct Hs as [_ [H2 _]]. eapply Forall_impl; [|exact H2]. simpl. intros f Hf; lia.
  - unfold handleRemoveFile. cbn [files]. rewrite remove_filter_seq.
    change (Nat.ltb i 0) with false. cbv iota. rewrite Nat.sub_0_r.
    destruct Hs as [H1 [H2 H3]].
    destruct (remove_at_sub _ i _ H2) as [A [B C]].
    split; [lia|]. split; [exact A|].
    assert (total_size (firstn i (files s) ++ skipn (S i) (files s))%list <= total_size (files s));
      [|lia].
    apply C. eapply Forall_impl; [|exact H2]. simpl. intros f Hf; lia.
  - split; [simpl; lia|]. split; [constructor | exact Lt].
Qed.

(** Over any sequence of picks, removals and "Clear All", a file list that
    starts within the limits (count, size of each file, total size) stays
    within them, provided the picker reports no negative size. *)
Theorem file_ops_keep_limits (fmt : Z -> string) (p : FilePickerProps)
    (v : list SelectedFile) (ops : list FileOp) :
  files_ok p v -> Forall op_ok ops ->
  files_ok p (files (run_files fmt p (mount v) ops)).
Proof.
  intros Hv Hops. unfold run_files.
  assert (H : files_ok p (files (mount v))) by exact Hv.
  revert H. generalize (mount v). induction Hops as [|op ops Hop Hops IH]; intros s Hs.
  - exact Hs.
  - simpl. apply IH. apply file_step_ok; assumption.
Qed.

Lemma file_ops_keep_limits_witness :
  files_ok default_props [] /\ Forall op_ok [OpPick (Picked (map sample_asset ["a"; "b"; "c"; "d"])); OpRemove 0; OpClear]
  /\ files_ok default_props
       (files (run_files (fun _ => "") default_props (mount [])
                 [OpPick (Picked (map sample_asset ["a"; "b"; "c"; "d"])); OpRemove 0; OpClear])).
Proof.
  assert (H1 : files_ok default_props []).
  { split; [simpl; lia | split; [constructor | vm_compute; discriminate]]. }
  assert (H2 : Forall op_ok [OpPick (Picked (map sample_asset ["a"; "b"; "c"; "d"])); OpRemove 0; OpClear]).
  { repeat constructor; simpl; lia. }
  split; [exact H1|]. split; [exact H2|].
  apply (file_ops_keep_limits (fun _ => "") default_props [] _ H1 H2).
Defined.

Lemma ext_core (base ext : string) :
  base <> "" -> ~ In "."%char (list_ascii_of_string ext) ->
  Z.of_nat (String.length (base ++ "." ++ ext)) <= 4294967296 ->
  getFileExtension (base ++ "." ++ ext) = toLowerCase ext.
Proof.
  intros Hb He Hlen.
  assert (Hi : last_dot (list_ascii_of_string (base ++ "." ++ ext)) 0 (-1)
               = Z.of_nat (String.length base)).
  { change ("." ++ ext) with (String "."%char ext).
    rewrite DateProofs.list_ascii_app, last_dot_app. cbn [last_dot list_ascii_of_string].
    rewrite ?Ascii.eqb_refl. rewrite last_dot_nodot by exact He.
    rewrite length_list_ascii. lia. }
  unfold getFileExtension. rewrite Hi.
  rewrite length_append in *. simpl String.length in *.
  assert (Hb1 : (1 <= String.length base)%nat) by (destruct base; [congruence | simpl; lia]).
  rewrite (Z.mod_small (Z.of_nat (String.length base) - 1)) by lia.
  replace (Z.of_nat (String.length base) - 1 + 2) with (Z.of_nat (String.length base + 1)) by lia.
  destruct (Z.leb_spec (Z.of_nat (String.length base + S (String.length ext)))
                      (Z.of_nat (String.length base + 1))) as [E0|E0].
  - destruct ext; [reflexivity | simpl in E0; lia].
  - rewrite Nat2Z.id.
    replace (Z.to_nat (Z.of_nat (String.length base + S (String.length ext))
                       - Z.of_nat (String.length base + 1))) with (String.length ext) by lia.
    rewrite substring_app_r. simpl. rewrite substring_full. reflexivity.
Qed.

(** [getFileExtension] of a name [base.ext] (non-empty [base], no dot in
    [ext]) is [ext] in lower case: the text after the last dot. *)
Theorem file_extension_after_last_dot (base ext : string) :
  base <> "" -> ~ In "."%char (list_ascii_of_string ext) ->
  Z.of_nat (String.length (base ++ "." ++ ext)) <= 4294967296 ->
  getFileExtension (base ++ "." ++ ext) = toLowerCase ext.
Proof. exact (ext_core base ext). Qed.

Lemma file_extension_after_last_dot_witness :
  getFileExtension "scan.v2.PDF" = "pdf".
Proof.
  apply (file_extension_after_last_dot "scan.v2" "PDF").
  - discriminate.
  - simpl. intuition discriminate.
  - simpl. lia.
Defined.

(** A name with no dot, or whose only dot is its first character (as in
    [.env]), has the empty extension: the unsigned shift
    [(lastIndexOf('.') - 1) >>> 0] sends the start past the end. *)
Theorem file_extension_without_inner_dot (name : string) :
  (~ In "."%char (list_ascii_of_string name)
   \/ exists rest, name = "." ++ rest /\ ~ In "."%char (list_ascii_of_string rest)) ->
  Z.of_nat (String.length name) <= 4294967296 ->
  getFileExtension name = "".
Proof.
  intros [H | [rest [-> H]]] Hlen; unfold getFileExtension.
  - rewrite last_dot_nodot by exact H.
    replace ((-1 - 1) mod 4294967296 + 2) with 4294967296 by reflexivity.
    replace (Z.of_nat (String.length name) <=? 4294967296) with true
      by (symmetry; apply Z.leb_le; lia). reflexivity.
  - simpl list_ascii_of_string. simpl last_dot.
    rewrite last_dot_nodot by exact H.
    replace ((0 - 1) mod 4294967296 + 2) with 4294967297 by reflexivity.
    replace (Z.of_nat (String.length ("." ++ rest)) <=? 4294967297) with true
      by (symmetry; apply Z.leb_le; simpl in *; lia). reflexivity.
Qed.

Lemma file_extension_without_inner_dot_witness :
  getFileExtension "README" = "" /\ getFileExtension ".env" = "".
Proof.
  split.
  - apply file_extension_without_inner_dot; [left; simpl; intuition discriminate | simpl; lia].
  - apply file_extension_without_inner_dot;
      [right; exists "env"; split; [reflexivity | simpl; intuition discriminate] | simpl; lia].
Defined.






(** The per-asset filter of [handlePickFiles] accounts for every asset:
    each one is kept or raises one alert, and each kept file has an allowed
    type and a size of 0 (unknown) or at most [maxSizePerFile]. *)
Theorem filter_assets_sound (p : FilePickerProps) (assets : list Asset) :
  (List.length (fst (filter_assets p assets)) + List.length (snd (filter_assets p assets))
   = List.length assets)%nat
  /\ Forall (fun f => isFileTypeAllowed (allowedTypes p) (mimeType f) (name f) = true
                      /\ (size f = 0 \/ size f <= maxSizePerFile p))
            (fst (filter_assets p assets)).
Proof.
  induction assets as [|a r [IH1 IH2]]; simpl; [split; [reflexivity | constructor]|].
  destruct (filter_assets p r) as [kept al]. simpl in *.
  destruct (isFileTypeAllowed (allowedTypes p) (a_mimeType a) (a_name a)) eqn:Et; simpl.
  - destruct (a_size a) as [sz|].
    + destruct (negb (sz =? 0) && (maxSizePerFile p <? sz))%bool eqn:Es; simpl.
      * split; [lia | exact IH2].
      * split; [lia|]. constructor; [|exact IH2]. simpl. split; [exact Et|].
        apply andb_false_iff in Es as [Es|Es].
        -- left. apply negb_false_iff, Z.eqb_eq in Es. exact Es.
        -- right. apply Z.ltb_ge in Es. exact Es.
    + split; [simpl; lia|]. constructor; [|exact IH2]. simpl. auto.
  - split; [lia | exact IH2].
Qed.

End FileSessionProofs.

Module ScreenProofs.
Import JsString ValidationEngine Screen.
Local Open Scope string_scope.

(** The uncontrolled field's invariant. *)
Definition field_inv (rules : list ValidationRule) (s : FieldState) : Prop :=
  (isTouched s = false -> errors s = [])
  /\ (isTouched s = true -> errors s = validate rules (internalValue s)).

(** An uncontrolled [CustomTextInput] (no [value] prop): before its first
    blur it holds no errors; from then on its errors are always those of
    [validate] on the text it holds, whatever the events. *)
Theorem uncontrolled_errors_track_text (rules : list ValidationRule)
    (es : list FieldEvent) :
  let s := run_field {| externalValue := None; validators := rules |} initial_field es in
  (isTouched s = false -> errors s = [])
  /\ (isTouched s = true -> errors s = validate rules (internalValue s)).
Proof.
  simpl. unfold run_field.
  assert (H : field_inv rules initial_field) by (split; [reflexivity | discriminate]).
  revert H. generalize initial_field.
  induction es as [|e es IH]; intros s [H1 H2]; simpl; [split; assumption|].
  apply IH. destruct e as [t| |]; simpl.
  - unfold handleChangeText. simpl. destruct (isTouched s) eqn:E; simpl.
    + split; [discriminate | reflexivity].
    + split; [intros _; apply H1; reflexivity | discriminate].
  - split; assumption.
  - split; [discriminate | reflexivity].
Qed.

(** The bound field's invariant. *)
Definition bound_inv (rules : list ValidationRule) (b : BoundField) : Prop :=
  (isTouched (bf_field b) = false -> bf_valid b = false /\ errors (bf_field b) = [])
  /\ (isTouched (bf_field b) = true ->
        bf_valid b = Nat.eqb (List.length (validate rules (bf_value b))) 0
        /\ errors (bf_field b) = validate rules (bf_value b)).

Lemma bound_inv_run (rules : list ValidationRule) (es : list FieldEvent) (b : BoundField) :
  bound_inv rules b -> bound_inv rules (run_bound rules b es).
Proof.
  unfold run_bound. revert b.
  induction es as [|e es IH]; intros b [H1 H2]; simpl; [split; assumption|].
  apply IH. destruct e as [t| |]; unfold bound_step; simpl.
  - unfold handleChangeText. simpl. destruct (isTouched (bf_field b)) eqn:E; simpl.
    + split; [discriminate | auto].
    + split; [intros _; apply H1; reflexivity | intros HE; simpl in HE; congruence].
  - split; assumption.
  - split; [discriminate | auto].
Qed.

Lemma bound_inv_init (rules : list ValidationRule) : bound_inv rules bound_init.
Proof. split; [auto | discriminate]. Qed.

(** A field the screen binds with [value], [onChangeText] and
    [onValidate]: the flag the screen keeps is [false] until the first
    blur, and from then on it is [true] exactly when the screen's value
    passes every rule; the field's errors are always those of that value
    once touched. *)
Theorem bound_flag_tracks_value (rules : list ValidationRule) (es : list FieldEvent) :
  let b := run_bound rules bound_init es in
  (isTouched (bf_field b) = false -> bf_valid b = false /\ errors (bf_field b) = [])
  /\ (isTouched (bf_field b) = true ->
        bf_valid b = Nat.eqb (List.length (validate rules (bf_value b))) 0
        /\ errors (bf_field b) = validate rules (bf_value b)).
Proof. apply bound_inv_run, bound_inv_init. Qed.

Lemma blank_empty (s : string) : (String.eqb s "" || blank s)%bool = blank s.
Proof. destruct (String.eqb_spec s ""); [subst; reflexivity | reflexivity]. Qed.

Lemma trim_empty (s : string) : s = "" -> trim s = "".
Proof. intros ->. reflexivity. Qed.

Lemma email_rules_valid (v : string) :
  Nat.eqb (List.length (validate emailRules v)) 0 = (negb (blank v) && email_test v)%bool.
Proof.
  unfold validate, emailRules, blank. simpl.
  destruct (String.eqb_spec (trim v) "") as [E|E].
  - rewrite E. destruct (negb (v =? "")%string && negb (email_test v))%bool; reflexivity.
  - destruct (trim v) eqn:T; [congruence|]. simpl.
    destruct (String.eqb_spec v "") as [->|Hv]; [discriminate|].
    destruct (email_test v); reflexivity.
Qed.

Lemma form_valid_spec (esn ese : list FieldEvent) (sd : string)
    (docs : list DocumentFile) :
  let f := {| nameField := run_bound nameRules bound_init esn;
              emailField := run_bound emailRules bound_init ese;
              startDate := sd; documents := docs |} in
  isFormValid f = (isTouched (bf_field (emailField f))
                   && fst (validateOnboardingData (form_request f)))%bool.
Proof.
  simpl. pose proof (bound_inv_run emailRules ese bound_init (bound_inv_init _)) as [H1 H2].
  set (b := run_bound emailRules bound_init ese) in *.
  unfold isFormValid, validateOnboardingData, form_request. simpl.
  rewrite !blank_empty.
  destruct (isTouched (bf_field b)).
  - destruct (H2 eq_refl) as [Hv _]. rewrite Hv, email_rules_valid.
    destruct (blank (bf_value (run_bound nameRules bound_init esn))),
             (blank (bf_value b)), (email_test (bf_value b)), (blank sd), docs;
      reflexivity.
  - destruct (H1 eq_refl) as [Hv _]. rewrite Hv.
    rewrite !andb_false_r. reflexivity.
Qed.

(** The submit button of [OnboardingScreen] is enabled ([isFormValid])
    exactly when the email field has been blurred at least once and the
    service's [validateOnboardingData] accepts the request built from the
    form; the name's length rules play no part. *)
Theorem submit_enabled_iff_valid (esn ese : list FieldEvent) (sd : string)
    (docs : list DocumentFile) :
  let f := {| nameField := run_bound nameRules bound_init esn;
              emailField := run_bound emailRules bound_init ese;
              startDate := sd; documents := docs |} in
  isFormValid f = (isTouched (bf_field (emailField f))
                   && fst (validateOnboardingData (form_request f)))%bool.
Proof. exact (form_valid_spec esn ese sd docs). Qed.

Lemma trim_single (c : ascii) : is_space c = false -> trim (String c "") = String c "".
Proof. intros Hc. unfold trim. simpl. rewrite Hc. simpl. rewrite Hc. reflexivity. Qed.

(** A one-character name: after typing it and leaving the field, the
    name field shows "Name must be at least 2 characters", yet the submit
    button's state is the one of any non-blank name, because
    [isFormValid] and [validateOnboardingData] only check that the name is
    not blank. *)
Theorem short_name_does_not_block_submit (c : ascii) (ese : list FieldEvent)
    (sd : string) (docs : list DocumentFile) :
  is_space c = false ->
  let nf := run_bound nameRules bound_init [EvChangeText (String c ""); EvBlur] in
  let f := {| nameField := nf; emailField := run_bound emailRules bound_init ese;
              startDate := sd; documents := docs |} in
  shown_messages (bf_field nf) = ["Name must be at least 2 characters"]
  /\ snd (validateOnboardingData (form_request f))
     = snd (validateOnboardingData {| r_name := "Ada"; r_email := bf_value (emailField f);
                                     r_startDate := sd; r_documents := docs |})
  /\ isFormValid f = (isTouched (bf_field (emailField f))
                      && fst (validateOnboardingData (form_request f)))%bool.
Proof.
  intros Hc nf f. split; [|split].
  - unfold nf, shown_messages, hasError, run_bound.
    unfold validate, nameRules. cbn -[trim]. rewrite (trim_single c Hc). reflexivity.
  - unfold f, nf, form_request, validateOnboardingData, run_bound.
    unfold blank. cbn -[trim]. rewrite (trim_single c Hc). reflexivity.
  - apply form_valid_spec.
Qed.

Lemma short_name_does_not_block_submit_witness :
  let f := {| nameField := run_bound nameRules bound_init [EvChangeText "A"; EvBlur];
              emailField := run_bound emailRules bound_init
                              [EvChangeText "a@b.co"; EvBlur];
              startDate := "01/02/2025";
              documents := [{| d_name := "id.pdf"; d_size := 10; d_mimeType := None;
                               d_uri := "file:///id.pdf" |}] |} in
  shown_messages (bf_field (nameField f)) = ["Name must be at least 2 characters"]
  /\ isFormValid f = true.
Proof.
  destruct (short_name_does_not_block_submit "A"%char
              [EvChangeText "a@b.co"; EvBlur] "01/02/2025"
              [{| d_name := "id.pdf"; d_size := 10; d_mimeType := None;
                  d_uri := "file:///id.pdf" |}] eq_refl) as [H1 [_ H3]].
  split; [exact H1|]. rewrite H3. vm_compute. reflexivity.
Defined.

End ScreenProofs.

Module BackendProofs.
Import JsString ValidationEngine Screen Backend.
Local Open Scope string_scope.
Local Open Scope Z_scope.

Lemma blank_or_empty (s : string) : (String.eqb s "" || blank s)%bool = blank s.
Proof. destruct (String.eqb_spec s ""); [subst; reflexivity | reflexivity]. Qed.




(** On the payload the client sends, the worker's checks are presence
    checks: an email or start date is missing only when it is the empty
    text.  So a start date of spaces passes the worker, while the
    client's [validateOnboardingData] trims and rejects it; an email of
    spaces is "Email is required" for the client but "Invalid email
    format" for the worker. *)
Theorem worker_checks_on_client_payload (data : SubmitRequest)
    (b64s : list (option string)) (nowIso : string) :
  (exists errs,
     worker_validate (json_normalize (payload data b64s nowIso))
       = Some (Nat.eqb (List.length errs) 0, errs)
     /\ (In "Name is required" errs <-> blank (r_name data) = true)
     /\ (In "Email is required" errs <-> r_email data = "")
     /\ (In "Invalid email format" errs <->
           r_email data <> "" /\ email_test (r_email data) = false)
     /\ (In "Start date is required" errs <-> r_startDate data = "")
     /\ (In "At least one document is required" errs <->
           combine (r_documents data) b64s = []))
  /\ (In "Email is required" (snd (validateOnboardingData data)) <->
        blank (r_email data) = true)
  /\ (In "Start date is required" (snd (validateOnboardingData data)) <->
        blank (r_startDate data) = true).
Proof.
  split; [|split].
  - eexists. split; [unfold worker_validate, payload; simpl; reflexivity|].
    rewrite !length_map.
    unfold blank.
    destruct (String.eqb_spec (r_name data) "") as [E1|E1]; try rewrite E1;
    destruct (String.eqb_spec (r_email data) "") as [E2|E2]; try rewrite E2;
    destruct (String.eqb_spec (r_startDate data) "") as [E3|E3]; try rewrite E3;
    destruct (combine (r_documents data) b64s) as [|x l];
    destruct (email_test (r_email data));
    simpl;
    repeat match goal with
           | |- context [if ?b then _ else _] => destruct b eqn:?
           end; simpl;
    intuition (try discriminate; try congruence).
  - unfold validateOnboardingData. simpl. rewrite !blank_or_empty.
    destruct (blank (r_name data)), (blank (r_email data)), (email_test (r_email data)),
             (blank (r_startDate data)), (Nat.eqb (List.length (r_documents data)) 0);
      simpl; intuition (try discriminate; try congruence).
  - unfold validateOnboardingData. simpl. rewrite !blank_or_empty.
    destruct (blank (r_name data)), (blank (r_email data)), (email_test (r_email data)),
             (blank (r_startDate data)), (Nat.eqb (List.length (r_documents data)) 0);
      simpl; intuition (try discriminate; try congruence).
Qed.










Ltac nonempty_msgs :=
  repeat match goal with
         | |- Forall _ (_ ++ _)%list => apply Forall_app; split
         | |- Forall _ (if ?b then _ else _) => destruct b
         | |- Forall _ (match ?x with _ => _ end) => destruct x
         | |- Forall _ [] => constructor
         | |- Forall _ (_ :: _) => constructor; [discriminate|]
         end.

Lemma worker_errors_nonempty (data : JVal) (errs : list string) :
  worker_validate data = Some (false, errs) ->
  errs <> [] /\ Forall (fun m => m <> "") errs.
Proof.
  unfold worker_validate.
  destruct (get data "name") as [nm|]; [|discriminate].
  destruct (get data "email") as [em|]; [|discriminate].
  destruct (get data "startDate") as [sd|]; [|discriminate].
  destruct (get data "documents") as [docs|]; [|discriminate].
  intros H. injection H as Hb He. split.
  - intros E. rewrite E in He. rewrite He in Hb. discriminate.
  - rewrite <- He. nonempty_msgs.
Qed.

Lemma join_nonempty (sep : string) (l : list string) :
  l <> [] -> Forall (fun m => m <> "") l -> join sep l <> "".
Proof.
  destruct l as [|x [|y r]]; [congruence| |]; intros _ H; inversion H; subst; simpl.
  - assumption.
  - destruct x; [congruence | discriminate].
Qed.

(** A request the worker cannot read (no JSON body, or [null]) is
    answered 500 and changes nothing; one it rejects is answered 400 and
    changes nothing, and the screen's alert shows the worker's error list
    joined by ", ". *)
Theorem rejected_submission_reaches_alert (now : Z) (nowIso rnd : string) (st : Store) :
  (handleSubmitOnboarding None now nowIso rnd st = (server_error, st)
   /\ handleSubmitOnboarding (Some JNull) now nowIso rnd st = (server_error, st)
   /\ submit_alert (client_result server_error) = ("Error", JStr "Internal server error"))
  /\ (forall data errs, worker_validate data = Some (false, errs) ->
        let '(resp, st') := handleSubmitOnboarding (Some data) now nowIso rnd st in
        st' = st /\ status resp = 400
        /\ submit_alert (client_result resp) = ("Error", JStr (join ", " errs))).
Proof.
  split; [split; [reflexivity | split; reflexivity]|].
  intros data errs H. unfold handleSubmitOnboarding. rewrite H.
  destruct (worker_errors_nonempty data errs H) as [Hne Hall].
  pose proof (join_nonempty ", " errs Hne Hall) as Hj.
  split; [reflexivity|]. split; [reflexivity|].
  apply String.eqb_neq in Hj.
  unfold client_result, submit_alert, handleError_message. simpl.
  rewrite ?Hj. simpl. rewrite ?Hj. reflexivity.
Qed.

Lemma rejected_submission_reaches_alert_witness :
  let data := json_normalize (payload {| r_name := "Ada"; r_email := "ada";
                                         r_startDate := ""; r_documents := [] |} [] "") in
  worker_validate data = Some (false, ["Invalid email format"; "Start date is required";
                                       "At least one document is required"])
  /\ let '(resp, st') := handleSubmitOnboarding (Some data) 0 "" "x" [] in
     st' = [] /\ status resp = 400
     /\ submit_alert (client_result resp)
        = ("Error", JStr (join ", " ["Invalid email format"; "Start date is required";
                                    "At least one document is required"])).
Proof.
  intros data.
  assert (H : worker_validate data = Some (false, ["Invalid email format"; "Start date is required";
                                                   "At least one document is required"]))
    by (vm_compute; reflexivity).
  split; [exact H|].
  exact (proj2 (rejected_submission_reaches_alert 0 "" "x" []) data _ H).
Defined.

Lemma split_list_two (sep : ascii) (l m : list ascii) :
  exists p q r, DateField.split_list sep (l ++ sep :: m)%list = p :: q :: r.
Proof.
  induction l as [|c l IH]; simpl.
  - rewrite Ascii.eqb_refl. destruct (DateField.split_list sep m) as [|q r] eqn:E.
    + destruct m; simpl in E; [discriminate|].
      destruct (Ascii.eqb a sep); [discriminate|]. destruct (DateField.split_list sep m); discriminate.
    + exists [], q, r. reflexivity.
  - destruct IH as (p & q & r & E). rewrite E.
    destruct (Ascii.eqb c sep); [exists [], p, (q :: r) | exists (c :: p), q, r]; reflexivity.
Qed.

Lemma last_split_app (sep : ascii) (l m : list ascii) :
  last (DateField.split_list sep (l ++ sep :: m)%list) []
  = last (DateField.split_list sep m) [].
Proof.
  induction l as [|c l IH]; simpl.
  - rewrite Ascii.eqb_refl. destruct (DateField.split_list sep m) as [|q r] eqn:E; [|reflexivity].
    destruct m; simpl in E; [discriminate|].
    destruct (Ascii.eqb a sep); [discriminate|]. destruct (DateField.split_list sep m); discriminate.
  - destruct (split_list_two sep l m) as (p & q & r & E). rewrite E in *.
    destruct (Ascii.eqb c sep); exact IH.
Qed.

Lemma last_map' {A B : Type} (f : A -> B) (l : list A) (d : A) :
  last (map f l) (f d) = f (last l d).
Proof.
  induction l as [|x [|y r] IH]; [reflexivity | reflexivity |].
  change (last (map f (x :: y :: r)) (f d)) with (last (map f (y :: r)) (f d)).
  rewrite IH. reflexivity.
Qed.

Lemma last_segment (x b : string) :
  ~ In "/"%char (list_ascii_of_string b) ->
  last (DateField.split "/"%char (x ++ "/" ++ b)) "" = b.
Proof.
  intros Hb. unfold DateField.split.
  change ("/" ++ b) with (String "/"%char b).
  rewrite DateProofs.list_ascii_app. cbn [list_ascii_of_string].
  change "" with (string_of_list_ascii []).
  rewrite last_map', last_split_app.
  rewrite DateProofs.split_list_single.
  - apply string_of_list_ascii_of_string.
  - clear x. induction (list_ascii_of_string b) as [|c l IH]; simpl; [reflexivity|].
    destruct (Ascii.eqb_spec c "/"%char) as [->|Hne]; [exfalso; apply Hb; simpl; auto|].
    apply IH. intros H. apply Hb. simpl. auto.
Qed.

Lemma prefix_onboard (x : string) : String.prefix "/api/onboard/" ("/api/onboard/" ++ x) = true.
Proof. destruct x; reflexivity. Qed.

(** The worker's routing: [OPTIONS] on any path is the CORS preflight;
    [GET /api/onboard/<id>] reads the record [<id>], and on a longer path
    only the last segment is taken as the id; [POST] is accepted on
    [/api/onboard] only, any other [POST] under it is not found. *)
Theorem route_cases :
  (forall path, route "OPTIONS" path = ROptions)
  /\ route "POST" "/api/onboard" = RSubmit
  /\ (forall id, ~ In "/"%char (list_ascii_of_string id) ->
        route "GET" ("/api/onboard/" ++ id) = RGet id)
  /\ (forall a b, ~ In "/"%char (list_ascii_of_string b) ->
        route "GET" ("/api/onboard/" ++ a ++ "/" ++ b) = RGet b)
  /\ (forall rest, route "POST" ("/api/onboard/" ++ rest) = RNotFound).
Proof.
  split; [reflexivity|]. split; [reflexivity|]. split; [|split].
  - intros id Hid. unfold route.
    replace (String.eqb ("/api/onboard/" ++ id) "/api/onboard") with false
      by (destruct id; reflexivity).
    rewrite prefix_onboard. cbn -[DateField.split].
    exact (f_equal RGet (last_segment "/api/onboard" id Hid)).
  - intros a b Hb. unfold route.
    replace (String.eqb ("/api/onboard/" ++ a ++ "/" ++ b) "/api/onboard") with false
      by (destruct a; reflexivity).
    rewrite prefix_onboard. cbn -[DateField.split].
    exact (f_equal RGet (last_segment ("/api/onboard/" ++ a) b Hb)).
  - intros rest. unfold route.
    replace (String.eqb ("/api/onboard/" ++ rest) "/api/onboard") with false
      by (destruct rest; reflexivity).
    rewrite prefix_onboard. reflexivity.
Qed.

Lemma route_cases_witness :
  route "GET" "/api/onboard/onboard_1735689600000_k3j2a" = RGet "onboard_1735689600000_k3j2a"
  /\ route "GET" "/api/onboard/users/onboard_7_x" = RGet "onboard_7_x".
Proof.
  destruct route_cases as [_ [_ [H3 [H4 _]]]]. split.
  - apply H3. simpl. intuition discriminate.
  - apply (H4 "users" "onboard_7_x"). simpl. intuition discriminate.
Defined.

End BackendProofs.

Module DateControlProofs.
Import JsString DateField DateControl.
Local Open Scope string_scope.
Local Open Scope Z_scope.













(** "Clear" empties the text and the error and keeps the touched flag: no
    day is highlighted, and the next blur reports "Date is required"
    exactly when the field is required. *)
Theorem clear_then_blur (p : DateProps) (s : DateState) :
  let '(s1, emitted) := handleClear s in
  textValue s1 = "" /\ error s1 = "" /\ emitted = "" /\ isTouched s1 = isTouched s
  /\ hasError s1 = false /\ markedDates p (textValue s1) = None
  /\ error (handleBlur p s1) = (if required p then "Date is required" else "")
  /\ hasError (handleBlur p s1) = required p.
Proof.
  unfold handleClear. repeat split.
  - unfold hasError. simpl. apply andb_false_r.
  - unfold handleBlur, validateDate. simpl. rewrite andb_true_r.
    destruct (required p); reflexivity.
  - unfold hasError, handleBlur, validateDate. simpl. rewrite andb_true_r.
    destruct (required p); reflexivity.
Qed.

End DateControlProofs.

Module CounterDisplayProofs.
Import Counter CounterDisplay.
Local Open Scope Q_scope.

(** [validDuration] is always between 0.1 s and one hour; a duration in
    that range is kept, a missing (zero) one becomes 1 s, and a non-zero
    one below 0.1 s (negative ones included) becomes 0.1 s. *)
Theorem valid_duration_clamps (p : CounterProps) :
  (1 # 10) <= validDuration p <= 3600
  /\ ((1 # 10) <= durationSec p <= 3600 -> validDuration p == durationSec p)
  /\ (durationSec p == 0 -> validDuration p == 1)
  /\ (~ durationSec p == 0 -> durationSec p <= (1 # 10) -> validDuration p == (1 # 10))
  /\ (3600 <= durationSec p -> validDuration p == 3600).
Proof.
  unfold validDuration.
  destruct (Qeq_bool (durationSec p) 0) eqn:E.
  - apply Qeq_bool_eq in E.
    assert (V : Qmax (1 # 10) (Qmin 3600 1) == 1) by reflexivity.
    rewrite V. split; [lra|]. split; [|split; [|split]].
    + intros Hd. rewrite E in Hd. lra.
    + intros _. reflexivity.
    + intros Hd. contradiction.
    + intros Hd. rewrite E in Hd. lra.
  - apply Qeq_bool_neq in E. set (d := durationSec p) in *.
    assert (B : (1 # 10) <= Qmax (1 # 10) (Qmin 3600 d) <= 3600).
    { split; [apply Q.le_max_l|]. apply Q.max_lub; [lra|apply Q.le_min_l]. }
    split; [exact B|]. split; [|split; [|split]].
    + intros Hd. rewrite (Q.min_r 3600 d) by lra. apply Q.max_r. lra.
    + intros Hd. contradiction.
    + intros _ Hd. apply Q.max_l. rewrite Q.min_le_iff. right. exact Hd.
    + intros Hd. rewrite (Q.min_l 3600 d) by exact Hd. apply Q.max_r. lra.
Qed.

Lemma valid_duration_pos (p : CounterProps) : 0 <= validDuration p * 1000.
Proof.
  destruct (valid_duration_clamps p) as [[H _] _]. lra.
Qed.

Lemma valid_target_nonneg (p : CounterProps) : 0 <= validTarget p.
Proof. unfold validTarget. apply Q.le_max_l. Qed.

Lemma js_round_bounds (v q : Q) :
  0 <= v -> 0 <= q <= 1 -> (0 <= js_round (q * v) <= js_round v)%Z.
Proof.
  intros Hv Hq. unfold js_round. split.
  - change 0%Z with (Qfloor 0). apply Qfloor_resp_le. nra.
  - apply Qfloor_resp_le. nra.
Qed.

Section Run.
Variable curve : EasingName -> Q -> Q.
Hypothesis curve_range : forall e x, 0 <= x <= 1 -> 0 <= curve e x <= 1.
Variable p : CounterProps.

Lemma in_range_cancel s : in_range s -> in_range (cancel s).
Proof.
  unfold cancel. destruct (anim s); [|tauto].
  intros [H _]. split; [exact H|]. simpl. discriminate.
Qed.

Lemma in_range_set_state st s : in_range s -> in_range (set_state st s).
Proof. intros H. exact H. Qed.

Lemma in_range_assign v s : 0 <= v <= 1 -> in_range (assign v s).
Proof. intros Hv. split; [exact Hv|]. simpl. discriminate. Qed.

Lemma in_range_animate d e s :
  in_range s -> 0 <= d -> in_range (animate d e s).
Proof.
  intros H Hd. pose proof (in_range_cancel s H) as [Hp _].
  split; [exact Hp|]. intros a Ha. simpl in Ha. injection Ha as <-. simpl.
  split; [exact Hp|]. split; [exact Hd | lra].
Qed.

Lemma in_range_tick dt s : 0 <= dt -> in_range s -> in_range (tick curve p dt s).
Proof.
  intros Hdt [Hp Ha]. unfold tick.
  destruct (anim s) as [a|] eqn:Ea; [|split; [exact Hp | rewrite Ea; exact Ha]].
  destruct (Ha a eq_refl) as (Hf & Hd & He).
  destruct (Qle_bool (a_duration a) (a_elapsed a + dt)) eqn:Eq.
  - split; [simpl; lra|]. simpl. discriminate.
  - assert (Hlt : a_elapsed a + dt < a_duration a).
    { apply Qnot_le_lt. intros Hle. apply Qle_bool_iff in Hle. congruence. }
    assert (Hx : 0 <= (a_elapsed a + dt) / a_duration a <= 1).
    { split.
      - apply Qle_shift_div_l; lra.
      - apply Qle_shift_div_r; lra. }
    pose proof (curve_range (a_easing a) _ Hx) as Hc.
    split.
    + simpl. nra.
    + intros a' Ha'. simpl in Ha'. injection Ha' as <-. simpl. lra.
Qed.

Lemma in_range_step s ev : tick_ok ev -> in_range s -> in_range (step curve p s ev).
Proof.
  intros Hev Hs. destruct ev; simpl.
  - unfold handleStart. destruct (state s).
    + apply in_range_animate; [apply in_range_assign; lra | apply valid_duration_pos].
    + exact Hs.
    + apply in_range_animate; [apply in_range_set_state; exact Hs|].
      destruct Hs as [Hp _]. pose proof (valid_duration_pos p). nra.
    + apply in_range_animate; [apply in_range_assign; lra | apply valid_duration_pos].
  - unfold handleStop. destruct (state s); try exact Hs.
    apply in_range_cancel, in_range_set_state, Hs.
  - apply in_range_assign. lra.
  - apply in_range_animate; [apply in_range_assign; lra | apply valid_duration_pos].
  - unfold deliver. destruct (pending s) as [|[|id] r]; exact Hs.
  - apply in_range_tick; assumption.
Qed.

(** Over any sequence of button presses, deliveries and non-negative
    animation frames, started from a state in range, the progress stays in
    [0..1] and the counter shows [Math.round] of a number between 0 and
    [Math.round(validTarget)]: the displayed count never goes negative or
    past the rounded target. *)
Theorem display_stays_within_target (s : Sys) (evs : list Event) :
  in_range s -> Forall tick_ok evs ->
  in_range (run curve p s evs)
  /\ exists n, displayValue p (progress (run curve p s evs)) = DateField.js_String_int n
               /\ (0 <= n <= js_round (validTarget p))%Z.
Proof.
  intros Hs Hevs.
  assert (Hr : in_range (run curve p s evs)).
  { unfold run. revert s Hs. induction Hevs as [|ev evs Hev _ IH]; intros s Hs.
    - exact Hs.
    - simpl. apply IH. apply in_range_step; assumption. }
  split; [exact Hr|].
  exists (js_round (progress (run curve p s evs) * validTarget p)).
  split; [reflexivity|].
  apply js_round_bounds; [apply valid_target_nonneg | apply Hr].
Qed.

End Run.

Lemma linear_only_range : forall e x, 0 <= x <= 1 -> 0 <= linear_only e x <= 1.
Proof. intros e x H. exact H. Qed.

Lemma display_stays_within_target_witness :
  in_range (run linear_only one_second_props init_sys
              [EStart; ETick 250; EStop; EStart; ETick 2000; EDeliver; EDeliver])
  /\ displayValue one_second_props
       (progress (run linear_only one_second_props init_sys
                    [EStart; ETick 250; EStop; EStart; ETick 2000; EDeliver; EDeliver]))
     = "100"%string.
Proof.
  assert (Hs : in_range init_sys).
  { split; [simpl; lra|]. simpl. discriminate. }
  assert (Hevs : Forall tick_ok [EStart; ETick 250; EStop; EStart; ETick 2000; EDeliver; EDeliver]).
  { repeat constructor; simpl; lra. }
  destruct (display_stays_within_target linear_only linear_only_range one_second_props
              init_sys _ Hs Hevs) as [Hr _].
  split; [exact Hr|]. vm_compute. reflexivity.
Defined.

(** Reset from any state: the timer is idle at progress 0 with no
    animation, the in-flight run (if any) is canceled, queued JS calls
    and fired completions are left as they are, the counter shows "0", and
    later animation frames change nothing until the next start. *)
Theorem reset_from_any_state (curve : EasingName -> Q -> Q) (p : CounterProps) (s : Sys) :
  let s' := handleReset s in
  state s' = idle /\ progress s' = 0 /\ anim s' = None
  /\ pending s' = pending s /\ fired s' = fired s /\ next_id s' = next_id s
  /\ canceled s' = canceled s ++ match anim s with Some a => [a_id a] | None => [] end
  /\ displayValue p (progress s') = "0"%string
  /\ (forall dt, tick curve p dt s' = s').
Proof.
  unfold handleReset, assign, cancel, set_state.
  destruct (anim s) as [a|]; cbn.
  all: repeat split; try (rewrite app_nil_r; reflexivity).
  all: unfold displayValue, js_round;
       rewrite (Qfloor_comp _ (1 # 2)) by (rewrite Qmult_0_l; reflexivity);
       reflexivity.
Qed.


(** A target of zero or below (the [Math.max(0, ...)] floor) makes the
    counter show "0" at every progress value. *)
Theorem nonpositive_target_shows_zero (p : CounterProps) (q : Q) :
  targetNumber p <= 0 -> displayValue p q = "0"%string.
Proof.
  intros Ht. unfold displayValue, validTarget.
  assert (Hv : Qmax 0 (if Qeq_bool (targetNumber p) 0 then 0 else targetNumber p) == 0).
  { destruct (Qeq_bool (targetNumber p) 0); apply Q.max_l; lra. }
  unfold js_round. rewrite (Qfloor_comp _ (1 # 2)).
  - reflexivity.
  - rewrite Hv, Qmult_0_r. reflexivity.
Qed.

Lemma nonpositive_target_shows_zero_witness :
  displayValue {| targetNumber := -5; durationSec := 1; onComplete := false;
                  easing := linear |} (3 # 4) = "0"%string.
Proof. apply nonpositive_target_shows_zero. simpl. lra. Defined.

End CounterDisplayProofs.
